(** * Octarine NAVis plugin: neurons to pygfx visuals

    A shallow embedding of the neuron converters of
    [octarine_navis_plugin/objects.py] ([neuron2gfx], [connectors2gfx],
    [mesh2gfx], [voxel2gfx], [skeleton2gfx], [dotprop2gfx]) and of the
    [add_neurons] entry point of [octarine_navis_plugin/__init__.py].

    - Python numbers are IEEE 754 values ([spec_float] of the Standard
      Library): binary64 for Python floats and pandas columns, rounded to
      binary32 where the source calls [astype(np.float32)].
    - Exceptions, log records, calls into navis / octarine / pygfx and the
      draws of [uuid.uuid4()] are effects of a small state-and-exception
      monad [M] over a [world].
    - The functions of navis the plugin calls are the methods of the class
      [Navis]; the constructors of octarine and pygfx are free constructors
      that record the arguments of the call. *)

From Stdlib Require Import ZArith List String Ascii Bool Lia DecimalString.
From Stdlib Require Import Floats.SpecFloat.
Import ListNotations.
Local Open Scope string_scope.
Local Open Scope list_scope.

(** ** Numbers and arrays (numpy) *)

Module Np.

Definition float : Type := spec_float.

Definition nan : float := S754_nan.

(** [float(z)] for a Python int literal. *)
Definition of_Z (z : Z) : float := binary_normalize 53 1024 z 0 false.

(** Python's [*] on two floats (binary64, round to nearest even). *)
Definition mul (a b : float) : float := SFmul 53 1024 a b.

(** [astype(np.float32)] on one float64 cell. *)
Definition to_f32 (v : float) : float :=
  match v with
  | S754_finite s m e => binary_round 24 128 s m e
  | _ => v
  end.

Definition isnan (v : float) : bool :=
  match v with S754_nan => true | _ => false end.

(** A cell of an object array: a float or Python's [None]. *)
Definition obj : Type := option float.

(** [astype(np.float32)] on a cell of an object array: [None] becomes
    not-a-number. *)
Definition obj_to_f32 (o : obj) : float :=
  match o with
  | None => nan
  | Some v => to_f32 v
  end.

(** A row of an (n, 3) coordinate array. *)
Definition xyz : Type := float * float * float.

Definition xyz_map {A B} (f : A -> B) (r : A * A * A) : B * B * B :=
  let '(a, b, c) := r in (f a, f b, f c).

Definition nan_row : xyz := (nan, nan, nan).

(** A row whose three cells are all not-a-number: a break in a line. *)
Definition is_break (r : xyz) : bool :=
  let '(a, b, c) := r in isnan a && isnan b && isnan c.

(** A row of a colour array, and a row all of whose cells are NaN. *)
Definition crow : Type := list float.

Definition is_cbreak (r : crow) : bool := forallb isnan r.

(** [t.shape[1]] of a 2-d array held as a list of rows (the width of its
    rows; the arrays this is used on have at least one row). *)
Definition shape1 {A} (t : list (list A)) : nat :=
  match t with
  | [] => 0
  | r :: _ => List.length r
  end.

End Np.

Import Np.

#[global] Arguments Np.of_Z : simpl never.
#[global] Arguments Np.mul : simpl never.
#[global] Arguments Np.to_f32 : simpl never.

(** ** Python values *)

(** Neuron identifiers and connector type tags: ints or strings. *)
Inductive pyid :=
| IdInt (z : Z)
| IdStr (s : string).

Definition pyid_eqb (a b : pyid) : bool :=
  match a, b with
  | IdInt x, IdInt y => Z.eqb x y
  | IdStr x, IdStr y => String.eqb x y
  | _, _ => false
  end.

Definition str_of_Z (z : Z) : string := NilZero.string_of_int (Z.to_int z).

(** [str(id)] *)
Definition str_of_pyid (i : pyid) : string :=
  match i with
  | IdInt z => str_of_Z z
  | IdStr s => s
  end.

(** Colours as the plugin passes them around: a colour name, a flat tuple or
    1-d array (RGB or RGBA), or a 2-d array with one row per vertex. *)
Inductive pycolor :=
| CName (s : string)
| CArr1 (c : crow)
| CArr2 (a : list crow).

(** Python truthiness of a colour given as a string or tuple. *)
Definition color_truthy (c : pycolor) : bool :=
  match c with
  | CName s => negb (String.eqb s EmptyString)
  | CArr1 [] => false
  | CArr1 (_ :: _) => true
  | CArr2 [] => false
  | CArr2 (_ :: _) => true
  end.

(** Exceptions, by class, with the message of the raise. *)
Inductive exn :=
| TypeError (msg : string)
| ValueError (msg : string)
| KeyError (msg : string)
| IndexError (msg : string)
| AttributeError (msg : string).

(** ** The neuron data model (navis) *)

(** A row of [neuron.nodes]: the columns the plugin reads by name, and the
    other numeric columns (radius among them) by column name.  Node ids are
    unique in a node table. *)
Record node := {
  node_id : Z;
  x : float;
  y : float;
  z : float;
  columns : list (string * float)
}.

(** A row of [neuron.connectors]. *)
Record connector := {
  cn_x : float;
  cn_y : float;
  cn_z : float;
  cn_type : pyid;
  cn_node_id : Z
}.

(** The [name] attribute as [getattr(neuron, "name", neuron.id)] sees it. *)
Inductive name_attr :=
| NameMissing
| NameNone
| NameStr (s : string).

(** What every neuron carries. *)
Record base := {
  id : pyid;
  name : name_attr;
  connectors : option (list connector)
}.

(** [neuron.soma]: [None], one node id, or an array of node ids. *)
Inductive soma_attr :=
| SomaNone
| SomaOne (s : Z)
| SomaMany (l : list Z).

(** [neuron.soma_radius]: the name of a node column, or a number. *)
Inductive soma_radius_attr :=
| RadiusColumn (col : string)
| RadiusScalar (r : float).

Record TreeNeuron := {
  t_base : base;
  label : string;
  nodes : list node;
  segments : list (list Z);
  soma : soma_attr;
  soma_radius : soma_radius_attr
}.

Record MeshNeuron := {
  m_base : base;
  vertices : list xyz;
  faces : list (nat * nat * nat)
}.

Record Dotprops := {
  d_base : base;
  points : list xyz;
  vect : list xyz
}.

Record VoxelNeuron := {
  v_base : base;
  voxels : list (Z * Z * Z);
  units_xyz : xyz;
  offset : xyz
}.

(** The neuron variants; [OtherNeuron] is a [BaseNeuron] of none of the four
    kinds the plugin converts. *)
Inductive neuron :=
| Tree (t : TreeNeuron)
| Mesh (m : MeshNeuron)
| Dots (d : Dotprops)
| Voxel (v : VoxelNeuron)
| OtherNeuron (b : base).

Definition neuron_base (n : neuron) : base :=
  match n with
  | Tree t => t_base t
  | Mesh m => m_base m
  | Dots d => d_base d
  | Voxel v => v_base v
  | OtherNeuron b => b
  end.

Definition is_MeshNeuron (n : neuron) : bool :=
  match n with Mesh _ => true | _ => false end.

(** [neuron.has_connectors]: the neuron has a connector table with at least
    one row. *)
Definition has_connectors (n : neuron) : bool :=
  match connectors (neuron_base n) with
  | Some (_ :: _) => true
  | _ => false
  end.

(** [str(getattr(neuron, "name", neuron.id))] *)
Definition name_str (n : neuron) : string :=
  match name (neuron_base n) with
  | NameMissing => str_of_pyid (id (neuron_base n))
  | NameNone => "None"
  | NameStr s => s
  end.

(** [navis.utils.make_iterable(neuron.soma)]: a value that is not iterable
    is wrapped, so [None] becomes the one-element array [[None]]. *)
Definition make_iterable (s : soma_attr) : list (option Z) :=
  match s with
  | SomaNone => [None]
  | SomaOne i => [Some i]
  | SomaMany l => map Some l
  end.

(** ** Visuals (octarine and pygfx) *)

Definition UUID : Type := N.

(** The object a constructor of octarine or pygfx returns, as the arguments
    of the call.  [Line] holds its positional [lines] argument as an option:
    [None] when the call passes none. *)
Inductive gfx :=
| Points (pos : list xyz) (color : pycolor) (size : float)
| Line (lines : option (list xyz)) (linewidth : float) (color : pycolor)
| MeshVis (src : MeshNeuron) (color : pycolor)
| VolumeVis (src : VoxelNeuron) (color : pycolor) (spacing : xyz) (off : xyz)
| Sphere (radius : float) (width_segments height_segments : Z)
         (color : pycolor).

(** A visual: the pygfx object, its local position, and the custom
    attributes the plugin sets on it ([None] while unset). *)
Record visual := {
  obj_of : gfx;
  local_x : float;
  local_y : float;
  local_z : float;
  _object_type : option string;
  _neuron_part : option string;
  _neuron_id : option pyid;
  _name : option string;
  _object_id : option UUID;
  _object : option neuron
}.

Definition new_visual (g : gfx) : visual :=
  {| obj_of := g;
     local_x := of_Z 0; local_y := of_Z 0; local_z := of_Z 0;
     _object_type := None; _neuron_part := None; _neuron_id := None;
     _name := None; _object_id := None; _object := None |}.

(** The six assignments under "Add custom attributes". *)
Definition add_custom_attributes (v : visual) (part : string) (n : neuron)
    (object_id : UUID) : visual :=
  {| obj_of := obj_of v;
     local_x := local_x v; local_y := local_y v; local_z := local_z v;
     _object_type := Some "neuron";
     _neuron_part := Some part;
     _neuron_id := Some (id (neuron_base n));
     _name := Some (name_str n);
     _object_id := Some object_id;
     _object := Some n |}.

(** [s.local.y = ...; s.local.x = ...; s.local.z = ...] *)
Definition set_local (v : visual) (px py pz : float) : visual :=
  {| obj_of := obj_of v;
     local_x := px; local_y := py; local_z := pz;
     _object_type := _object_type v; _neuron_part := _neuron_part v;
     _neuron_id := _neuron_id v; _name := _name v;
     _object_id := _object_id v; _object := _object v |}.

(** ** Keyword arguments *)

(** The [color] argument: one colour, a list of colours, or a dictionary
    from neuron id to colour. *)
Inductive color_arg :=
| ColorOne (c : pycolor)
| ColorList (l : list pycolor)
| ColorDict (d : list (pyid * pycolor)).

(** [cn_colors]: a dictionary from connector type to colour, or one value
    (the string ["neuron"], a colour name, a tuple). *)
Inductive cn_colors_arg :=
| CnDict (d : list (pyid * pycolor))
| CnValue (c : pycolor).

Inductive scale_vec_arg :=
| ScaleAuto
| ScaleVec (v : float).

(** An entry of a synapse layout, e.g. [{'name': 'Presynapses', 'color':
    (255, 0, 0)}], and a layout: entries by connector type, plus the keys
    ['display'] and ['size']. *)
Record lay_entry := {
  lay_name : option string;
  lay_color : option pycolor
}.

Record layout := {
  lay_types : list (pyid * lay_entry);
  lay_display : option string;
  lay_size : option float
}.

(** [**kwargs]: a field is [None] when the key is absent.  [synapse_layout]
    may be present and hold Python's [None] (as [add_neurons] passes it by
    default): [Some None]. *)
Record kwargs := {
  kw_c : option color_arg;
  kw_colors : option color_arg;
  kw_palette : option string;
  kw_color_by : option string;
  kw_shade_by : option string;
  kw_alpha : option float;
  kw_vmin : option float;
  kw_vmax : option float;
  kw_smin : option float;
  kw_smax : option float;
  kw_na : option string;
  kw_clusters : option (list Z);
  kw_radius : option bool;
  kw_connectors : option bool;
  kw_connectors_only : option bool;
  kw_synapse_layout : option (option layout);
  kw_cn_colors : option cn_colors_arg;
  kw_linewidth : option float;
  kw_lw : option float;
  kw_soma : option bool;
  kw_dps_scale_vec : option scale_vec_arg;
  kw_random_ids : option bool
}.

(** [kwargs.get(key, default)] *)
Definition get {A} (v : option A) (default : A) : A :=
  match v with
  | Some a => a
  | None => default
  end.

(** The call with no keyword argument at all. *)
Definition no_kwargs : kwargs :=
  {| kw_c := None; kw_colors := None; kw_palette := None;
     kw_color_by := None; kw_shade_by := None; kw_alpha := None;
     kw_vmin := None; kw_vmax := None; kw_smin := None; kw_smax := None;
     kw_na := None; kw_clusters := None; kw_radius := None;
     kw_connectors := None; kw_connectors_only := None;
     kw_synapse_layout := None; kw_cn_colors := None;
     kw_linewidth := None; kw_lw := None; kw_soma := None;
     kw_dps_scale_vec := None; kw_random_ids := None |}.

(** [kwargs.pop("dps_scale_vec", "auto")]: what is left in [kwargs]. *)
Definition pop_dps_scale_vec (kw : kwargs) : kwargs :=
  {| kw_c := kw_c kw; kw_colors := kw_colors kw; kw_palette := kw_palette kw;
     kw_color_by := kw_color_by kw; kw_shade_by := kw_shade_by kw;
     kw_alpha := kw_alpha kw; kw_vmin := kw_vmin kw; kw_vmax := kw_vmax kw;
     kw_smin := kw_smin kw; kw_smax := kw_smax kw; kw_na := kw_na kw;
     kw_clusters := kw_clusters kw; kw_radius := kw_radius kw;
     kw_connectors := kw_connectors kw;
     kw_connectors_only := kw_connectors_only kw;
     kw_synapse_layout := kw_synapse_layout kw;
     kw_cn_colors := kw_cn_colors kw;
     kw_linewidth := kw_linewidth kw; kw_lw := kw_lw kw;
     kw_soma := kw_soma kw;
     kw_dps_scale_vec := None; kw_random_ids := kw_random_ids kw |}.

(** [not palette]: [None] and the empty string are falsy. *)
Definition palette_missing (p : option string) : bool :=
  match p with
  | None => true
  | Some s => String.eqb s EmptyString
  end.

(** ** Effects *)

(** Records of [navis.config.logger.warning] and of [warnings.warn]. *)
Inductive warning :=
| SkippingTreeNeuronWithoutNodes (i : pyid)
| SkippingSingleNodeTreeNeuron (lbl : string)
| TooManySomas (i : pyid) (count : nat)
| SkippingNeuronOfType
| NeuronListContainsDuplicateIDs.

(** Calls that leave the plugin. *)
Inductive call :=
| navis_prepare_colormap
| navis_vertex_colors (by_ : string)
| navis_tree2meshneuron
| navis_segments_to_coords
| navis_eval_color
| navis_to_skeleton
| oc_points2gfx
| oc_lines2gfx
| oc_mesh2gfx
| oc_volume2gfx
| gfx_Mesh
| uuid_uuid4
| viewer_clear
| viewer_add_to_scene
| viewer_center_camera.

Inductive event :=
| Warned (w : warning)
| Called (c : call).

(** The state a call runs in: the events so far (oldest first), the source
    of random UUIDs with the number drawn, and the viewer's scene. *)
Record world := {
  events : list event;
  uuid_source : nat -> UUID;
  uuid_drawn : nat;
  scene : list visual
}.

Definition M (A : Type) : Type := world -> (exn + A) * world.

Definition ret {A} (a : A) : M A := fun w => (inr a, w).

Definition bind {A B} (m : M A) (k : A -> M B) : M B :=
  fun w =>
    match m w with
    | (inl e, w') => (inl e, w')
    | (inr a, w') => k a w'
    end.

Definition raise {A} (e : exn) : M A := fun w => (inl e, w).

Declare Scope py_scope.
Delimit Scope py_scope with py.
Notation "x <- c ;; k" := (bind c (fun x => k))
  (at level 100, c at next level, right associativity) : py_scope.
Notation "c ;;; k" := (bind c (fun _ => k))
  (at level 100, right associativity) : py_scope.
Local Open Scope py_scope.

Definition record_event (e : event) (w : world) : world :=
  {| events := events w ++ [e];
     uuid_source := uuid_source w;
     uuid_drawn := uuid_drawn w;
     scene := scene w |}.

Definition emit (e : event) : M unit := fun w => (inr tt, record_event e w).

Definition warn (m : warning) : M unit := emit (Warned m).

(** A call to an external function, with the value it returns. *)
Definition ext {A} (c : call) (result : A) : M A :=
  emit (Called c) ;;; ret result.

(** A call to an external function that may raise. *)
Definition ext_try {A} (c : call) (result : exn + A) : M A :=
  emit (Called c) ;;;
  match result with
  | inl e => raise e
  | inr a => ret a
  end.

(** [uuid.uuid4()] *)
Definition uuid4 : M UUID :=
  fun w =>
    (inr (uuid_source w (uuid_drawn w)),
     {| events := events w ++ [Called uuid_uuid4];
        uuid_source := uuid_source w;
        uuid_drawn := S (uuid_drawn w);
        scene := scene w |}).

(** [visuals += body(a)] for each [a] of [l], in order. *)
Fixpoint for_each {A B} (l : list A) (body : A -> M (list B)) : M (list B) :=
  match l with
  | [] => ret []
  | a :: l' =>
      vs <- body a ;;
      rest <- for_each l' body ;;
      ret (vs ++ rest)
  end.

(** The warnings among the events of a world. *)
Definition warnings (w : world) : list warning :=
  flat_map (fun e => match e with Warned m => [m] | Called _ => [] end)
           (events w).

(** ** navis *)

Record prepare_colormap_args := {
  pc_colors : option color_arg;
  pc_palette : option string;
  pc_alpha : option float;
  pc_clusters : option (list Z)
}.

Record vertex_colors_args := {
  vc_by : string;
  vc_alpha : option float;
  vc_use_alpha : bool;
  vc_palette : string;
  vc_vmin : option float;
  vc_vmax : option float;
  vc_na : string
}.

(** The functions of navis the plugin calls (always with [color_range=1]).
    [vertex_colors] may raise (its [na] policy defaults to ["raise"]);
    [segments_to_coords] returns one block of coordinates per segment and,
    given node colours, [segments_to_colors] the block of colours of each
    segment. *)
Class Navis := {
  prepare_colormap : prepare_colormap_args -> list neuron -> list pycolor;
  vertex_colors : list neuron -> vertex_colors_args -> exn + list (list crow);
  eval_color : pycolor -> pycolor;
  segments_to_coords : TreeNeuron -> list (list xyz);
  segments_to_colors : TreeNeuron -> list crow -> list (list crow);
  tree2meshneuron : TreeNeuron -> MeshNeuron;
  to_skeleton : Dotprops -> scale_vec_arg -> TreeNeuron;
  default_connector_colors : layout
}.

(** ** numpy and pandas helpers *)

(** [np.vstack(blocks)]: raises on an empty list of blocks. *)
Definition vstack {A} (blocks : list (list A)) : exn + list A :=
  match blocks with
  | [] => inl (ValueError "need at least one array to concatenate")
  | _ => inr (List.concat blocks)
  end.

(** [np.append(t, [[None] * 3], axis=0)] on a block of coordinates. *)
Definition append_none_xyz (t : list xyz) : list (obj * obj * obj) :=
  map (xyz_map Some) t ++ [(None, None, None)].

(** [np.append(t, [[None] * t.shape[1]], axis=0)] on a block of colours. *)
Definition append_none_crow (t : list crow) : list (list obj) :=
  map (map Some) t ++ [repeat None (shape1 t)].

(** Lines 328-329 of objects.py:
    [np.vstack([np.append(t, [[None] * 3], axis=0) for t in coords])
       .astype(np.float32)]. *)
Definition flatten_coords (coords : list (list xyz)) : exn + list xyz :=
  match vstack (map append_none_xyz coords) with
  | inl e => inl e
  | inr a => inr (map (xyz_map obj_to_f32) a)
  end.

(** Lines 324-326 of objects.py, the same on the blocks of colours. *)
Definition flatten_colors (vertex_colors : list (list crow))
    : exn + list crow :=
  match vstack (map append_none_crow vertex_colors) with
  | inl e => inl e
  | inr a => inr (map (map obj_to_f32) a)
  end.

(** Lines 236-239 of objects.py:
    [np.hstack((pos, tn_coords, np.full(pos.shape, np.nan)))
       .reshape((len(pos) * 3, 3)).astype(np.float32)]. *)
Definition connector_line_coords (pos tn_coords : list xyz) : list xyz :=
  map (xyz_map to_f32)
      (List.concat (map (fun pt => [fst pt; snd pt; nan_row])
                   (combine pos tn_coords))).

(** [np.asarray(color).astype(np.float32)]; a colour name is no number. *)
Definition asarray_f32 (c : pycolor) : exn + pycolor :=
  match c with
  | CName s => inl (ValueError "could not convert string to float")
  | CArr1 r => inr (CArr1 (map to_f32 r))
  | CArr2 a => inr (CArr2 (map (map to_f32) a))
  end.

(** [nodes.set_index("node_id").loc[s]] *)
Definition loc (tbl : list node) (s : Z) : exn + node :=
  match find (fun n => Z.eqb (node_id n) s) tbl with
  | Some n => inr n
  | None => inl (KeyError (str_of_Z s))
  end.

(** [nodes.set_index("node_id").loc[ids][["x", "y", "z"]].values] *)
Fixpoint loc_xyz (tbl : list node) (ids : list Z) : exn + list xyz :=
  match ids with
  | [] => inr []
  | s :: ids' =>
      match loc tbl s with
      | inl e => inl e
      | inr n =>
          match loc_xyz tbl ids' with
          | inl e => inl e
          | inr rest => inr ((x n, y n, z n) :: rest)
          end
      end
  end.

(** [np.where(nodes.node_id == s)[0][0]] *)
Fixpoint where_first (ids : list Z) (s : Z) : exn + nat :=
  match ids with
  | [] => inl (IndexError "index 0 is out of bounds for axis 0 with size 0")
  | i :: ids' =>
      if Z.eqb i s then inr 0
      else match where_first ids' s with
           | inl e => inl e
           | inr k => inr (S k)
           end
  end.

(** [a[i]] on a list or array, for an index that is not negative. *)
Definition getitem {A} (a : list A) (i : nat) : exn + A :=
  match nth_error a i with
  | Some v => inr v
  | None => inl (IndexError "index out of range")
  end.

(** [getattr(n, col)] on a row of the node table indexed by node id. *)
Definition getattr_node (n : node) (col : string) : exn + float :=
  if String.eqb col "x" then inr (x n)
  else if String.eqb col "y" then inr (y n)
  else if String.eqb col "z" then inr (z n)
  else match find (fun kv => String.eqb (fst kv) col) (columns n) with
       | Some kv => inr (snd kv)
       | None => inl (AttributeError col)
       end.

(** [series.unique()]: the distinct values, in order of first appearance. *)
Fixpoint unique (l : list pyid) : list pyid :=
  match l with
  | [] => []
  | a :: l' => a :: filter (fun b => negb (pyid_eqb a b)) (unique l')
  end.

(** [d.get(k)] on a dictionary held as an association list. *)
Definition dict_get {V} (d : list (pyid * V)) (k : pyid) : option V :=
  match find (fun kv => pyid_eqb (fst kv) k) d with
  | Some kv => Some (snd kv)
  | None => None
  end.

(** [base.update(upd)] on layouts. *)
Definition layout_update (base_ upd : layout) : layout :=
  {| lay_types := lay_types upd ++ lay_types base_;
     lay_display := match lay_display upd with
                    | Some d => Some d
                    | None => lay_display base_
                    end;
     lay_size := match lay_size upd with
                 | Some s => Some s
                 | None => lay_size base_
                 end |}.

Definition lift {A} (r : exn + A) : M A :=
  match r with
  | inl e => raise e
  | inr a => ret a
  end.

(** The double quote, for messages that quote a value. *)
Definition dquote : string := String (ascii_of_nat 34) EmptyString.

(** [s] between double quotes. *)
Definition quoted (s : string) : string := (dquote ++ s ++ dquote)%string.

(** The message of the [ValueError] of line 110. *)
Definition palette_message : string :=
  ("Must provide `palette` (e.g. " ++ quoted "viridis"
     ++ ") argument if using `color_by`")%string.

(** The colours [(0.1, 0.1, 0.1)] and [0.1]. *)
Definition tenth : float := SFdiv 53 1024 (of_Z 1) (of_Z 10).

Definition dark_grey : pycolor := CArr1 [tenth; tenth; tenth].

(** ** objects.py *)

Section Objects.

Context `{Navis}.

(** The colour of the connectors of type [j] (lines 204-211). *)
Definition connector_color (cn_colors : option cn_colors_arg)
    (cn_lay : layout) (neuron_color : pycolor) (j : pyid) : pycolor :=
  let from_layout :=
    match dict_get (lay_types cn_lay) j with
    | Some e => get (lay_color e) dark_grey
    | None => dark_grey
    end in
  match cn_colors with
  | Some (CnDict d) => get (dict_get d j) from_layout
  | Some (CnValue (CName "neuron")) => neuron_color
  | Some (CnValue c) => if color_truthy c then c else from_layout
  | None => from_layout
  end.

(** [neuron.nodes]: only skeletons have a node table. *)
Definition neuron_nodes (n : neuron) : exn + list node :=
  match n with
  | Tree t => inr (nodes t)
  | _ => inl (AttributeError "nodes")
  end.

(** The body of the loop of [connectors2gfx], for one connector type.  In
    the "lines" branch the source computes [coords] (lines 236-239) and
    then calls [lines2gfx] with [linewidth] and [color] only (lines
    242-244). *)
Definition connectors2gfx_type (neuron_ : neuron) (cns : list connector)
    (cn_lay : layout) (neuron_color : pycolor) (object_id : UUID)
    (kw : kwargs) (j : pyid) : M (list visual) :=
  let color := connector_color (kw_cn_colors kw) cn_lay neuron_color j in
  color <- ext navis_eval_color (eval_color color) ;;
  let this_cn := filter (fun c => pyid_eqb (cn_type c) j) cns in
  let pos :=
    map (fun c => xyz_map to_f32 (cn_x c, cn_y c, cn_z c)) this_cn in
  mode <- match lay_display cn_lay with
          | Some m => ret m
          | None => raise (KeyError "display")
          end ;;
  con <- (if String.eqb mode "circles" || is_MeshNeuron neuron_ then
            ext oc_points2gfx
                (new_visual
                   (Points pos color (get (lay_size cn_lay) (of_Z 100))))
          else if String.eqb mode "lines" then
            tbl <- lift (neuron_nodes neuron_) ;;
            tn_coords <- lift (loc_xyz tbl (map cn_node_id this_cn)) ;;
            let coords := connector_line_coords pos tn_coords in
            ext oc_lines2gfx
                (new_visual
                   (Line None (get (kw_linewidth kw) (of_Z 1)) color))
          else
            raise (ValueError ("Unknown connector display mode "
                           ++ quoted mode)%string)) ;;
  ret [add_custom_attributes con "connectors" neuron_ object_id].

(** Lines 198-199: the default layout of navis, updated with the caller's
    [synapse_layout]; [dict.update(None)] raises. *)
Definition connector_layout (kw : kwargs) : exn + layout :=
  match kw_synapse_layout kw with
  | None => inr default_connector_colors
  | Some (Some l) => inr (layout_update default_connector_colors l)
  | Some None => inl (TypeError "'NoneType' object is not iterable")
  end.

(** [connectors2gfx(neuron, neuron_color, object_id, **kwargs)] *)
Definition connectors2gfx (neuron_ : neuron) (neuron_color : pycolor)
    (object_id : UUID) (kw : kwargs) : M (list visual) :=
  cn_lay <- lift (connector_layout kw) ;;
  cns <- match connectors (neuron_base neuron_) with
         | Some cns => ret cns
         | None =>
             raise (AttributeError
                      "'NoneType' object has no attribute 'type'")
         end ;;
  for_each (unique (map cn_type cns))
           (connectors2gfx_type neuron_ cns cn_lay neuron_color
                                object_id kw).

(** [mesh2gfx(neuron, neuron_color, object_id, **kwargs)] *)
Definition mesh2gfx (m : MeshNeuron) (neuron_color : pycolor)
    (object_id : UUID) (kw : kwargs) : M (list visual) :=
  match faces m with
  | [] => ret []
  | _ =>
      v <- ext oc_mesh2gfx (new_visual (MeshVis m neuron_color)) ;;
      ret [add_custom_attributes v "neurites" (Mesh m) object_id]
  end.

(** [voxel2gfx(neuron, neuron_color, object_id, **kwargs)] *)
Definition voxel2gfx (v : VoxelNeuron) (neuron_color : pycolor)
    (object_id : UUID) (kw : kwargs) : M (list visual) :=
  vol <- ext oc_volume2gfx
             (new_visual
                (VolumeVis v neuron_color (units_xyz v) (offset v))) ;;
  ret [add_custom_attributes vol "neurites" (Voxel v) object_id].

(** Lines 375-379: the soma radius, a node column or a number. *)
Definition resolve_soma_radius (t : TreeNeuron) (n : node) : exn + float :=
  match soma_radius t with
  | RadiusColumn col => getattr_node n col
  | RadiusScalar r => inr r
  end.

(** The body of the loop over the somas (lines 360-398). *)
Definition soma2gfx (t : TreeNeuron) (neuron_color : pycolor)
    (object_id : UUID) (s : option Z) : M (list visual) :=
  match s with
  | None => ret []
  | Some s =>
      soma_color <- match neuron_color with
                    | CArr2 a =>
                        s_ix <- lift (where_first (map node_id (nodes t)) s) ;;
                        c <- lift (getitem a s_ix) ;;
                        ret (CArr1 c)
                    | _ => ret neuron_color
                    end ;;
      n <- lift (loc (nodes t) s) ;;
      r <- lift (resolve_soma_radius t n) ;;
      sph <- ext gfx_Mesh
                 (new_visual (Sphere (mul r (of_Z 2)) 16%Z 8%Z soma_color)) ;;
      let sph := set_local sph (x n) (y n) (z n) in
      ret [add_custom_attributes sph "soma" (Tree t) object_id]
  end.

(** [skeleton2gfx(neuron, neuron_color, object_id, **kwargs)].  With
    per-vertex colours the source flattens them into [vertex_colors] (lines
    324-326) and builds the line with [color=neuron_color] (line 335). *)
Definition skeleton2gfx (t : TreeNeuron) (neuron_color : pycolor)
    (object_id : UUID) (kw : kwargs) : M (list visual) :=
  match nodes t with
  | [] =>
      warn (SkippingTreeNeuronWithoutNodes (id (t_base t))) ;;; ret []
  | [_] =>
      warn (SkippingSingleNodeTreeNeuron (label t)) ;;; ret []
  | _ =>
      if get (kw_connectors_only kw) false then ret []
      else
        neuron_color <- lift (asarray_f32 neuron_color) ;;
        coords <- match neuron_color with
                  | CArr2 a =>
                      coords <- ext navis_segments_to_coords
                                    (segments_to_coords t) ;;
                      vertex_colors <-
                        lift (flatten_colors (segments_to_colors t a)) ;;
                      ret coords
                  | _ =>
                      ext navis_segments_to_coords (segments_to_coords t)
                  end ;;
        coords <- lift (flatten_coords coords) ;;
        line <- ext oc_lines2gfx
                    (new_visual
                       (Line (Some coords)
                             (get (kw_linewidth kw)
                                  (get (kw_lw kw) (of_Z 2)))
                             neuron_color)) ;;
        let line := add_custom_attributes line "neurites" (Tree t)
                                          object_id in
        let soma_ := make_iterable (soma t) in
        somas <- (if get (kw_soma kw) true then
                    if Nat.leb 10 (List.length soma_) then
                      warn (TooManySomas (id (t_base t))
                                         (List.length soma_)) ;;;
                      ret []
                    else
                      for_each soma_ (soma2gfx t neuron_color object_id)
                  else ret []) ;;
        ret (line :: somas)
  end.

(** [dotprop2gfx(x, neuron_color, object_id, **kwargs)] *)
Definition dotprop2gfx (d : Dotprops) (neuron_color : pycolor)
    (object_id : UUID) (kw : kwargs) : M (list visual) :=
  match points d with
  | [] => ret []
  | _ =>
      let scale_vec := get (kw_dps_scale_vec kw) ScaleAuto in
      tn <- ext navis_to_skeleton (to_skeleton d scale_vec) ;;
      skeleton2gfx tn neuron_color object_id (pop_dps_scale_vec kw)
  end.

End Objects.

(** ** Merging a shading map into a colour map (numpy) *)

Definition bindE {A B} (r : exn + A) (k : A -> exn + B) : exn + B :=
  match r with
  | inl e => inl e
  | inr a => k a
  end.

(** [a[:, 3]] *)
Fixpoint column3 (a : list crow) : exn + list float :=
  match a with
  | [] => inr []
  | r :: a' =>
      match nth_error r 3 with
      | None => inl (IndexError "index 3 is out of bounds for axis 1")
      | Some v => bindE (column3 a') (fun rest => inr (v :: rest))
      end
  end.

(** Broadcasting a 1-d array to length [n]. *)
Definition broadcast {A} (n : nat) (v : list A) : exn + list A :=
  if Nat.eqb (List.length v) n then inr v
  else match v with
       | [a] => inr (repeat a n)
       | _ => inl (ValueError "could not broadcast input array")
       end.

(** The body of the loop of lines 148-157: the alpha channel of the shading
    array [a] written into colour [c], which is tiled first when flat. *)
Definition merge_alpha (c : pycolor) (a : list crow) : exn + pycolor :=
  bindE (match c with
         | CArr2 rows => inr rows
         | CArr1 r => inr (repeat r (List.length a))
         | CName _ =>
             inl (IndexError "index 3 is out of bounds for axis 1 with size 1")
         end)
    (fun rows =>
       bindE (column3 a) (fun alpha =>
       bindE (broadcast (List.length rows) alpha) (fun alpha =>
         if Nat.eqb (shape1 rows) 4 then
           inr (CArr2 (map (fun ra => firstn 3 (fst ra) ++ [snd ra]
                                        ++ skipn 4 (fst ra))
                           (combine rows alpha)))
         else if Nat.ltb (shape1 rows) 3 then
           inl (IndexError "index 3 is out of bounds for axis 1")
         else
           inr (CArr2 (map (fun ra => firstn 3 (fst ra) ++ [snd ra]
                                        ++ skipn 3 (fst ra))
                           (combine rows alpha)))))).

(** [for c, a in zip(colormap, alphamap): ... new_colormap.append(c)] *)
Fixpoint merge_alphamap (colormap : list pycolor) (alphamap : list (list crow))
    : exn + list pycolor :=
  match colormap, alphamap with
  | c :: colormap', a :: alphamap' =>
      bindE (merge_alpha c a) (fun c' =>
      bindE (merge_alphamap colormap' alphamap') (fun rest =>
        inr (c' :: rest)))
  | _, _ => inr []
  end.

(** ** The entry points *)

(** What a caller may hand to the plugin: a neuron, a [NeuronList], a
    skeletor skeleton (with the [TreeNeuron] navis builds from it), or an
    object of another type. *)
Inductive pyinput :=
| InNeuron (n : neuron)
| InNeuronList (l : list neuron)
| InSkeletor (as_tree : TreeNeuron)
| InOther (type_name : string).

Section Pipeline.

Context `{Navis}.

(** Lines 102-158 of [neuron2gfx]: the colour arguments parsed into one
    colour per neuron. *)
Definition resolve_colormap (x : list neuron) (color : option color_arg)
    (kw : kwargs) : M (list pycolor) :=
  let colors :=
    match color with
    | Some c => Some c
    | None => match kw_c kw with
              | Some c => Some c
              | None => kw_colors kw
              end
    end in
  let palette := kw_palette kw in
  colormap <-
    match kw_color_by kw with
    | Some color_by =>
        if palette_missing palette then
          raise (ValueError palette_message)
        else
          cm <- ext_try (navis_vertex_colors color_by)
                  (vertex_colors x
                     {| vc_by := color_by;
                        vc_alpha := Some (get (kw_alpha kw) (of_Z 1));
                        vc_use_alpha := false;
                        vc_palette := get palette EmptyString;
                        vc_vmin := kw_vmin kw;
                        vc_vmax := kw_vmax kw;
                        vc_na := get (kw_na kw) "raise" |}) ;;
          ret (map CArr2 cm)
    | None =>
        ext navis_prepare_colormap
            (prepare_colormap
               {| pc_colors := colors;
                  pc_palette := palette;
                  pc_alpha := kw_alpha kw;
                  pc_clusters := kw_clusters kw |}
               x)
    end ;;
  match kw_shade_by kw with
  | Some shade_by =>
      alphamap <- ext_try (navis_vertex_colors shade_by)
                    (vertex_colors x
                       {| vc_by := shade_by;
                          vc_alpha := None;
                          vc_use_alpha := true;
                          vc_palette := "viridis";
                          vc_vmin := kw_smin kw;
                          vc_vmax := kw_smax kw;
                          vc_na := get (kw_na kw) "raise" |}) ;;
      lift (merge_alphamap colormap alphamap)
  | None => ret colormap
  end.

(** Lines 166-171: with [radius], a skeleton becomes a mesh neuron that
    carries the skeleton's connectors. *)
Definition with_radius (kw : kwargs) (neuron_ : neuron) : M neuron :=
  if get (kw_radius kw) false then
    match neuron_ with
    | Tree t =>
        m <- ext navis_tree2meshneuron (tree2meshneuron t) ;;
        ret (Mesh {| m_base := {| id := id (m_base m);
                                  name := name (m_base m);
                                  connectors := connectors (t_base t) |};
                     vertices := vertices m;
                     faces := faces m |})
    | _ => ret neuron_
    end
  else ret neuron_.

(** Lines 174-189: one neuron converted with its colour and object id. *)
Definition convert (kw : kwargs) (neuron_ : neuron) (neuron_color : pycolor)
    (object_id : UUID) : M (list visual) :=
  neurites <-
    (if negb (get (kw_connectors_only kw) false) then
       match neuron_ with
       | Tree t => skeleton2gfx t neuron_color object_id kw
       | Mesh m => mesh2gfx m neuron_color object_id kw
       | Dots d => dotprop2gfx d neuron_color object_id kw
       | Voxel v => voxel2gfx v neuron_color object_id kw
       | OtherNeuron _ => warn SkippingNeuronOfType ;;; ret []
       end
     else ret []) ;;
  cns <-
    (if (get (kw_connectors kw) false || get (kw_connectors_only kw) false)
          && has_connectors neuron_ then
       connectors2gfx neuron_ neuron_color object_id kw
     else ret []) ;;
  ret (neurites ++ cns).

(** The body of the loop of lines 162-189. *)
Definition neuron2gfx_body (kw : kwargs) (colormap : list pycolor)
    (i : nat) (neuron_ : neuron) : M (list visual) :=
  object_id <- uuid4 ;;
  neuron_ <- with_radius kw neuron_ ;;
  neuron_color <- lift (getitem colormap i) ;;
  convert kw neuron_ neuron_color object_id.

(** [for i, neuron in enumerate(x): ...], from index [i] on. *)
Fixpoint neuron2gfx_loop (kw : kwargs) (colormap : list pycolor) (i : nat)
    (x : list neuron) : M (list visual) :=
  match x with
  | [] => ret []
  | neuron_ :: x' =>
      vs <- neuron2gfx_body kw colormap i neuron_ ;;
      rest <- neuron2gfx_loop kw colormap (S i) x' ;;
      ret (vs ++ rest)
  end.

(** Lines 96-100: "Make sure we're operating on a NeuronList". *)
Definition as_neuronlist (x : pyinput) : M (list neuron) :=
  match x with
  | InNeuron n => ret [n]
  | InNeuronList l => ret l
  | InSkeletor _ =>
      raise (TypeError
             ("Unable to process data of type "
                ++ quoted "<class 'skeletor.skeleton.Skeleton'>")%string)
  | InOther ty =>
      raise (TypeError ("Unable to process data of type " ++ quoted ty)%string)
  end.

(** [neuron2gfx(x, color=None, **kwargs)] *)
Definition neuron2gfx (x : pyinput) (color : option color_arg)
    (kw : kwargs) : M (list visual) :=
  x <- as_neuronlist x ;;
  colormap <- resolve_colormap x color kw ;;
  neuron2gfx_loop kw colormap 0 x.

(** *** __init__.py *)

(** Modelled from the spec: [is_neuron] of [utils.py], the type predicate
    of a single neuron registered with the viewer. *)
Definition is_neuron (x : pyinput) : bool :=
  match x with InNeuron _ => true | _ => false end.

(** Modelled from the spec: [is_neuronlist] of [utils.py], the type
    predicate of a collection of neurons registered with the viewer. *)
Definition is_neuronlist (x : pyinput) : bool :=
  match x with InNeuronList _ => true | _ => false end.

Fixpoint has_duplicates (l : list pyid) : bool :=
  match l with
  | [] => false
  | a :: l' => existsb (pyid_eqb a) l' || has_duplicates l'
  end.

(** [x.is_degenerated]: the list holds neurons with the same id. *)
Definition is_degenerated (x : pyinput) : bool :=
  match x with
  | InNeuronList l => has_duplicates (map (fun n => id (neuron_base n)) l)
  | _ => false
  end.

(** The parameters of [add_neurons] after [x]. *)
Record add_neurons_args := {
  a_color : option color_arg;
  a_alpha : float;
  a_connectors : bool;
  a_cn_colors : option cn_colors_arg;
  a_color_by : option string;
  a_shade_by : option string;
  a_palette : option string;
  a_vmin : option float;
  a_vmax : option float;
  a_linewidth : float;
  a_synapse_layout : option layout;
  a_radius : bool;
  a_center : bool;
  a_clear : bool;
  a_random_ids : bool
}.

(** The arguments [a] with [random_ids] set to [b]. *)
Definition with_random_ids (b : bool) (a : add_neurons_args)
    : add_neurons_args :=
  {| a_color := a_color a; a_alpha := a_alpha a;
     a_connectors := a_connectors a; a_cn_colors := a_cn_colors a;
     a_color_by := a_color_by a; a_shade_by := a_shade_by a;
     a_palette := a_palette a; a_vmin := a_vmin a; a_vmax := a_vmax a;
     a_linewidth := a_linewidth a; a_synapse_layout := a_synapse_layout a;
     a_radius := a_radius a; a_center := a_center a; a_clear := a_clear a;
     a_random_ids := b |}.

(** The defaults of the signature of [add_neurons]. *)
Definition add_neurons_defaults : add_neurons_args :=
  {| a_color := None; a_alpha := of_Z 1; a_connectors := false;
     a_cn_colors := None; a_color_by := None; a_shade_by := None;
     a_palette := None; a_vmin := None; a_vmax := None;
     a_linewidth := of_Z 1; a_synapse_layout := None; a_radius := false;
     a_center := true; a_clear := false; a_random_ids := false |}.

(** The keyword arguments [add_neurons] hands to [neuron2gfx]. *)
Definition add_neurons_kwargs (a : add_neurons_args) : kwargs :=
  {| kw_c := None; kw_colors := None;
     kw_palette := a_palette a;
     kw_color_by := a_color_by a;
     kw_shade_by := a_shade_by a;
     kw_alpha := Some (a_alpha a);
     kw_vmin := a_vmin a; kw_vmax := a_vmax a;
     kw_smin := None; kw_smax := None; kw_na := None;
     kw_clusters := None;
     kw_radius := Some (a_radius a);
     kw_connectors := Some (a_connectors a);
     kw_connectors_only := None;
     kw_synapse_layout := Some (a_synapse_layout a);
     kw_cn_colors := a_cn_colors a;
     kw_linewidth := Some (a_linewidth a);
     kw_lw := None; kw_soma := None; kw_dps_scale_vec := None;
     kw_random_ids := Some (a_random_ids a) |}.

(** Lines 82-88 and 107-114 of [add_neurons] follow; [add_neurons] returns
    nothing, the visuals end up in the viewer's scene. *)

(** Lines 82-88: the check of the input, with the warning on duplicate
    ids. *)
Definition check_input (x : pyinput) : M unit :=
  if is_neuron x then ret tt
  else if is_neuronlist x then
    if is_degenerated x then warn NeuronListContainsDuplicateIDs
    else ret tt
  else raise (ValueError "Input must be a navis Neuron/List.").

(** [self.clear()] *)
Definition clear : M unit :=
  fun w => (inr tt, {| events := events w ++ [Called viewer_clear];
                       uuid_source := uuid_source w;
                       uuid_drawn := uuid_drawn w;
                       scene := [] |}).

(** [self._add_to_scene(v, center=False)] *)
Definition _add_to_scene (v : visual) : M unit :=
  fun w => (inr tt, {| events := events w ++ [Called viewer_add_to_scene];
                       uuid_source := uuid_source w;
                       uuid_drawn := uuid_drawn w;
                       scene := scene w ++ [v] |}).

(** Lines 107-114: the visuals put into the scene. *)
Fixpoint add_all_to_scene (vis : list visual) : M unit :=
  match vis with
  | [] => ret tt
  | v :: vis' => _add_to_scene v ;;; add_all_to_scene vis'
  end.

Definition update_scene (a : add_neurons_args) (vis : list visual)
    : M unit :=
  (if a_clear a then clear else ret tt) ;;;
  add_all_to_scene vis ;;;
  (if a_center a then emit (Called viewer_center_camera) else ret tt).

(** [add_neurons(self, x, ...)] *)
Definition add_neurons (x : pyinput) (a : add_neurons_args) : M unit :=
  let x := match x with
           | InSkeletor t => InNeuron (Tree t)
           | _ => x
           end in
  check_input x ;;;
  vis <- neuron2gfx x (a_color a) (add_neurons_kwargs a) ;;
  update_scene a vis.

End Pipeline.


(** ** A stand-in for navis

    An executable instance of [Navis], to run the plugin on concrete
    neurons: one colour per neuron, one coordinate block per segment, the
    default connector layout of [navis.config]. *)

Module Model.

Definition one : float := of_Z 1.
Definition zero : float := of_Z 0.

Definition n_vertices (n : neuron) : nat :=
  match n with
  | Tree t => List.length (nodes t)
  | Mesh m => List.length (vertices m)
  | Dots d => List.length (points d)
  | Voxel v => List.length (voxels v)
  | OtherNeuron _ => 0
  end.

Definition model_prepare_colormap (args : prepare_colormap_args)
    (xs : list neuron) : list pycolor :=
  map (fun ix =>
         match pc_colors args with
         | Some (ColorOne c) => c
         | Some (ColorList l) => nth (fst ix) l dark_grey
         | Some (ColorDict d) =>
             get (dict_get d (id (neuron_base (snd ix)))) dark_grey
         | None => CArr1 [zero; zero; zero; one]
         end)
      (combine (seq 0 (List.length xs)) xs).

Definition model_vertex_colors (xs : list neuron) (args : vertex_colors_args)
    : exn + list (list crow) :=
  inr (map (fun n => repeat [tenth; tenth; tenth; one] (n_vertices n)) xs).

Definition model_eval_color (c : pycolor) : pycolor :=
  match c with
  | CName "red" => CArr1 [one; zero; zero]
  | CName "green" => CArr1 [zero; one; zero]
  | CName "blue" => CArr1 [zero; zero; one]
  | _ => c
  end.

Definition model_segments_to_coords (t : TreeNeuron) : list (list xyz) :=
  map (flat_map (fun s => match loc (nodes t) s with
                          | inr n => [(x n, y n, z n)]
                          | inl _ => []
                          end))
      (segments t).

Definition model_segments_to_colors (t : TreeNeuron) (colors : list crow)
    : list (list crow) :=
  map (flat_map (fun s =>
                   match where_first (map node_id (nodes t)) s with
                   | inr i => match nth_error colors i with
                              | Some c => [c]
                              | None => []
                              end
                   | inl _ => []
                   end))
      (segments t).

Definition model_tree2meshneuron (t : TreeNeuron) : MeshNeuron :=
  {| m_base := t_base t;
     vertices := map (fun n => (x n, y n, z n)) (nodes t);
     faces := map (fun i => (i, S i, S i))
                  (seq 0 (pred (List.length (nodes t)))) |}.

Definition model_to_skeleton (d : Dotprops) (scale_vec : scale_vec_arg)
    : TreeNeuron :=
  {| t_base := d_base d;
     label := "dotprops";
     nodes := map (fun ip => {| node_id := Z.of_nat (fst ip);
                                x := fst (fst (snd ip));
                                y := snd (fst (snd ip));
                                z := snd (snd ip);
                                columns := [] |})
                  (combine (seq 0 (List.length (points d))) (points d));
     segments := [map Z.of_nat (seq 0 (List.length (points d)))];
     soma := SomaNone;
     soma_radius := RadiusColumn "radius" |}.

(** [navis.config.default_connector_colors] *)
Definition model_default_connector_colors : layout :=
  {| lay_types :=
       [(IdInt 0, {| lay_name := Some "Presynapses";
                     lay_color := Some (CArr1 [one; zero; zero]) |});
        (IdInt 1, {| lay_name := Some "Postsynapses";
                     lay_color := Some (CArr1 [zero; zero; one]) |});
        (IdInt 2, {| lay_name := Some "Gap junctions";
                     lay_color := Some (CArr1 [zero; one; zero]) |})];
     lay_display := Some "lines";
     lay_size := None |}.

#[export] Instance navis_model : Navis :=
  {| prepare_colormap := model_prepare_colormap;
     vertex_colors := model_vertex_colors;
     eval_color := model_eval_color;
     segments_to_coords := model_segments_to_coords;
     segments_to_colors := model_segments_to_colors;
     tree2meshneuron := model_tree2meshneuron;
     to_skeleton := model_to_skeleton;
     default_connector_colors := model_default_connector_colors |}.

(** A world with no event yet, whose [k]-th UUID is [k + 1]. *)
Definition w0 : world :=
  {| events := [];
     uuid_source := fun k => N.succ (N.of_nat k);
     uuid_drawn := 0;
     scene := [] |}.

Definition pt (a b c : Z) : xyz := (of_Z a, of_Z b, of_Z c).

Definition mk_node (i a b c r : Z) : node :=
  {| node_id := i; x := of_Z a; y := of_Z b; z := of_Z c;
     columns := [("radius", of_Z r)] |}.

Definition mk_connector (a b c : Z) (ty : Z) (nd : Z) : connector :=
  {| cn_x := of_Z a; cn_y := of_Z b; cn_z := of_Z c;
     cn_type := IdInt ty; cn_node_id := nd |}.

(** A linear skeleton of three nodes with one presynapse on node 2. *)
Definition skeleton3 : TreeNeuron :=
  {| t_base := {| id := IdInt 7; name := NameStr "n7";
                  connectors := Some [mk_connector 5 5 5 0 2] |};
     label := "n7";
     nodes := [mk_node 1 0 0 0 4; mk_node 2 1 0 0 1; mk_node 3 2 0 0 1];
     segments := [[3; 2; 1]%Z];
     soma := SomaOne 1;
     soma_radius := RadiusColumn "radius" |}.

(** Four nodes in two segments of two points each, no soma. *)
Definition skeleton_two_segments : TreeNeuron :=
  {| t_base := {| id := IdInt 4; name := NameStr "n4";
                  connectors := None |};
     label := "n4";
     nodes := [mk_node 1 0 0 0 1; mk_node 2 1 0 0 1;
               mk_node 3 2 0 0 1; mk_node 4 3 0 0 1];
     segments := [[1; 2]%Z; [3; 4]%Z];
     soma := SomaNone;
     soma_radius := RadiusColumn "radius" |}.

(** Twelve nodes in a row, all of them reported as somas. *)
Definition nodes12 : list node :=
  map (fun i => mk_node (Z.of_nat i) (Z.of_nat i) 0 0 3) (seq 1 12).

Definition skeleton12 : TreeNeuron :=
  {| t_base := {| id := IdInt 12; name := NameStr "n12";
                  connectors := None |};
     label := "n12";
     nodes := nodes12;
     segments := [map Z.of_nat (seq 1 12)];
     soma := SomaMany (map Z.of_nat (seq 1 12));
     soma_radius := RadiusScalar (of_Z 3) |}.

(** A mesh neuron of one face with one presynapse. *)
Definition mesh1 : MeshNeuron :=
  {| m_base := {| id := IdInt 8; name := NameStr "m8";
                  connectors := Some [mk_connector 1 1 1 0 0] |};
     vertices := [pt 0 0 0; pt 1 0 0; pt 0 1 0];
     faces := [(0, 1, 2)] |}.

Definition grey : pycolor := CArr1 [tenth; tenth; tenth; one].

(** A layout that only sets the display mode. *)
Definition display_layout (mode : string) : layout :=
  {| lay_types := []; lay_display := Some mode; lay_size := None |}.

Definition kw_display (mode : string) : kwargs :=
  {| kw_c := None; kw_colors := None; kw_palette := None;
     kw_color_by := None; kw_shade_by := None; kw_alpha := None;
     kw_vmin := None; kw_vmax := None; kw_smin := None; kw_smax := None;
     kw_na := None; kw_clusters := None; kw_radius := None;
     kw_connectors := Some true; kw_connectors_only := None;
     kw_synapse_layout := Some (Some (display_layout mode));
     kw_cn_colors := None;
     kw_linewidth := None; kw_lw := None; kw_soma := None;
     kw_dps_scale_vec := None; kw_random_ids := None |}.

(** Keyword arguments, neurons and results of the examples below. *)

(** Keyword arguments that turn soma plotting off, and that ask for the
    connectors only. *)
Definition kw_soma_off : kwargs :=
  {| kw_c := None; kw_colors := None; kw_palette := None;
     kw_color_by := None; kw_shade_by := None; kw_alpha := None;
     kw_vmin := None; kw_vmax := None; kw_smin := None; kw_smax := None;
     kw_na := None; kw_clusters := None; kw_radius := None;
     kw_connectors := None; kw_connectors_only := None;
     kw_synapse_layout := None; kw_cn_colors := None;
     kw_linewidth := None; kw_lw := None; kw_soma := Some false;
     kw_dps_scale_vec := None; kw_random_ids := None |}.

Definition kw_only_connectors : kwargs :=
  {| kw_c := None; kw_colors := None; kw_palette := None;
     kw_color_by := None; kw_shade_by := None; kw_alpha := None;
     kw_vmin := None; kw_vmax := None; kw_smin := None; kw_smax := None;
     kw_na := None; kw_clusters := None; kw_radius := None;
     kw_connectors := None; kw_connectors_only := Some true;
     kw_synapse_layout := None; kw_cn_colors := None;
     kw_linewidth := None; kw_lw := None; kw_soma := None;
     kw_dps_scale_vec := None; kw_random_ids := None |}.

Definition kw_color_by_only : kwargs :=
  {| kw_c := None; kw_colors := None; kw_palette := None;
     kw_color_by := Some "strahler_index"; kw_shade_by := None;
     kw_alpha := None;
     kw_vmin := None; kw_vmax := None; kw_smin := None; kw_smax := None;
     kw_na := None; kw_clusters := None; kw_radius := None;
     kw_connectors := None; kw_connectors_only := None;
     kw_synapse_layout := None; kw_cn_colors := None;
     kw_linewidth := None; kw_lw := None; kw_soma := None;
     kw_dps_scale_vec := None; kw_random_ids := None |}.

(** [add_neurons(x, random_ids=True)] *)
Definition args_random_ids : add_neurons_args :=
  with_random_ids true add_neurons_defaults.

(** Two neurons and the colour map the stand-in resolves for them. *)
Definition two_neurons : list neuron := [Tree skeleton3; Mesh mesh1].

Definition two_colors : list pycolor :=
  [CArr1 [zero; zero; zero; one]; CArr1 [zero; zero; zero; one]].

(** The visuals of the two neurons, with their connectors as circles. *)
Definition two_neurons_visuals : list visual :=
  Eval vm_compute in
    match fst (neuron2gfx (InNeuronList two_neurons) None
                          (kw_display "circles") w0) with
    | inr vs => vs
    | inl _ => []
    end.

Definition two_neurons_world : world :=
  Eval vm_compute in
    snd (neuron2gfx (InNeuronList two_neurons) None
                    (kw_display "circles") w0).

(** The visuals of the three-node skeleton: its line and its soma. *)
Definition skeleton3_visuals : list visual :=
  Eval vm_compute in
    match fst (skeleton2gfx skeleton3 grey 9%N no_kwargs w0) with
    | inr vs => vs
    | inl _ => []
    end.

Definition skeleton3_world : world :=
  Eval vm_compute in snd (skeleton2gfx skeleton3 grey 9%N no_kwargs w0).

Definition skeleton3_soma : visual :=
  Eval vm_compute in
    nth 1 skeleton3_visuals (new_visual (Line None zero grey)).

End Model.


(** * Vocabulary of the properties *)

Definition same_uuids (w w1 : world) : Prop :=
  uuid_source w1 = uuid_source w /\ uuid_drawn w1 = uuid_drawn w.

(** A computation that leaves the UUID source as it found it. *)
Definition frame {A} (m : M A) : Prop :=
  forall w, same_uuids w (snd (m w)).

(** Every visual of [vs] carries the object id [oid]. *)
Definition tagged (oid : UUID) (vs : list visual) : Prop :=
  Forall (fun v => _object_id v = Some oid) vs.

(** The neurons of an input the converter accepts. *)
Definition input_neurons (x : pyinput) : list neuron :=
  match x with
  | InNeuron n => [n]
  | InNeuronList l => l
  | _ => []
  end.

(** The calls that resolve colours. *)
Definition is_resolver_call (e : event) : bool :=
  match e with
  | Called navis_prepare_colormap => true
  | Called (navis_vertex_colors _) => true
  | _ => false
  end.

(** The visual is a point cloud. *)
Definition is_points (v : visual) : bool :=
  match obj_of v with
  | Points _ _ _ => true
  | _ => false
  end.

Section Vocabulary.

Context `{Navis}.

(** The visuals of the neuron at position [i] of [xs], converted in one call
    that started in world [w]: the output [g] of [convert] on that neuron
    (made a mesh first under [radius]) with the [i]-th UUID drawn. *)
Definition converted_at (kw : kwargs) (xs : list neuron) (w : world)
    (i : nat) (g : list visual) : Prop :=
  exists n n' c wa wa' wb,
    nth_error xs i = Some n
    /\ with_radius kw n wa = (inr n', wa')
    /\ convert kw n' c (uuid_source w (uuid_drawn w + i)) wa' = (inr g, wb).

(** The colour map is read by position: running the loop from index
    [length pre] on a map that starts with [pre] is converting each neuron
    with the colour paired with it. *)
Definition convert_pair (kw : kwargs) (nc : neuron * pycolor)
    : M (list visual) :=
  object_id <- uuid4 ;;
  neuron_ <- with_radius kw (fst nc) ;;
  convert kw neuron_ (snd nc) object_id.

(** What the plugin relies on from navis: [prepare_colormap] and
    [vertex_colors] return one entry per neuron. *)
Definition resolver_contract : Prop :=
  (forall args xs,
      List.length (prepare_colormap args xs) = List.length xs)
  /\ (forall xs args cm,
         vertex_colors xs args = inr cm -> List.length cm = List.length xs).

(** What the neurite line needs: navis gives at least one segment, and the
    colour is numeric (with per-vertex colours, at least one block). *)
Definition has_line_geometry (t : TreeNeuron) (c : pycolor) : Prop :=
  segments_to_coords t <> []
  /\ match c with
     | CName _ => False
     | CArr1 _ => True
     | CArr2 a => segments_to_colors t (map (map to_f32) a) <> []
     end.

(** The neurite line of a skeleton [t] with colour [c]: its coordinates are
    the flattened segments. *)
Definition is_neurite_line (t : TreeNeuron) (v : visual) : Prop :=
  _neuron_part v = Some "neurites"
  /\ exists rows lw col,
       flatten_coords (segments_to_coords t) = inr rows
       /\ obj_of v = Line (Some rows) lw col.

End Vocabulary.


(** * Further vocabulary *)

(** A computation that leaves the viewer's scene as it found it. *)
Definition keeps_scene {A} (m : M A) : Prop :=
  forall w, scene (snd (m w)) = scene w.

(** The kind of pygfx object behind a visual. *)
Inductive kind :=
| KPoints
| KLine
| KMesh
| KVolume
| KSphere.

Definition kind_of (v : visual) : kind :=
  match obj_of v with
  | Points _ _ _ => KPoints
  | Line _ _ _ => KLine
  | MeshVis _ _ => KMesh
  | VolumeVis _ _ _ _ => KVolume
  | Sphere _ _ _ _ => KSphere
  end.

(** The six custom attributes of [v] are those of part [part] of neuron
    [n] under object id [oid]. *)
Definition custom (part : string) (n : neuron) (oid : UUID) (v : visual)
    : Prop :=
  _object_type v = Some "neuron"
  /\ _neuron_part v = Some part
  /\ _neuron_id v = Some (id (neuron_base n))
  /\ _name v = Some (name_str n)
  /\ _object_id v = Some oid
  /\ _object v = Some n.

(** The parts a conversion with keyword arguments [kw] may produce, with
    the kinds of object each part is drawn with. *)
Definition part_allowed (kw : kwargs) (part : string) (k : kind) : Prop :=
  (part = "neurites"
   /\ get (kw_connectors_only kw) false = false
   /\ (k = KLine \/ k = KMesh \/ k = KVolume))
  \/ (part = "soma"
      /\ get (kw_connectors_only kw) false = false
      /\ get (kw_soma kw) true = true
      /\ k = KSphere)
  \/ (part = "connectors"
      /\ (get (kw_connectors kw) false = true
          \/ get (kw_connectors_only kw) false = true)
      /\ (k = KPoints \/ k = KLine)).

(** A visual as one conversion with [kw] and object id [oid] makes them. *)
Definition made_with (kw : kwargs) (oid : UUID) (v : visual) : Prop :=
  exists part n, custom part n oid v /\ part_allowed kw part (kind_of v).

(** The number of connectors of type [j]. *)
Definition count_type (j : pyid) (cns : list connector) : nat :=
  List.length (filter (fun c => pyid_eqb (cn_type c) j) cns).

(** The points drawn for the connectors of type [j]: their positions as
    float32. *)
Definition connector_positions (j : pyid) (cns : list connector)
    : list xyz :=
  map (fun c => xyz_map to_f32 (cn_x c, cn_y c, cn_z c))
      (filter (fun c => pyid_eqb (cn_type c) j) cns).

(** The number of points of a point cloud (0 for another object). *)
Definition n_points (v : visual) : nat :=
  match obj_of v with
  | Points pos _ _ => List.length pos
  | _ => 0
  end.

(** The somas that are not [None]. *)
Definition valid_somas (l : list (option Z)) : list Z :=
  flat_map (fun s => match s with Some i => [i] | None => [] end) l.

(** The input [add_neurons] converts: a skeletor skeleton as the
    [TreeNeuron] built from it. *)
Definition accepted_input (x : pyinput) : pyinput :=
  match x with
  | InSkeletor t => InNeuron (Tree t)
  | _ => x
  end.

(** A neuron the converters skip: a skeleton of at most one node, a mesh
    neuron without faces, dotprops without points, a neuron of another
    kind. *)
Definition skipped (n : neuron) : bool :=
  match n with
  | Tree t => Nat.leb (List.length (nodes t)) 1
  | Mesh m => match faces m with [] => true | _ => false end
  | Dots d => match points d with [] => true | _ => false end
  | Voxel _ => false
  | OtherNeuron _ => true
  end.

(** The warning logged when a skipped neuron is skipped, if any. *)
Definition skip_warning (n : neuron) : list warning :=
  match n with
  | Tree t =>
      match nodes t with
      | [] => [SkippingTreeNeuronWithoutNodes (id (t_base t))]
      | _ => [SkippingSingleNodeTreeNeuron (label t)]
      end
  | OtherNeuron _ => [SkippingNeuronOfType]
  | _ => []
  end.

(** The sphere drawn for the soma at node [n] with radius [r] and colour
    [col]. *)
Definition soma_sphere (t : TreeNeuron) (oid : UUID) (n : node) (r : float)
    (col : pycolor) : visual :=
  add_custom_attributes
    (set_local (new_visual (Sphere (mul r (of_Z 2)) 16 8 col))
               (x n) (y n) (z n))
    "soma" (Tree t) oid.


(** The row indices of the breaks in a flattened sequence whose blocks
    have the lengths [lens], the first block starting at row [start]. *)
Fixpoint break_indices (start : nat) (lens : list nat) : list nat :=
  match lens with
  | [] => []
  | n :: lens' => (start + n) :: break_indices (start + n + 1) lens'
  end.

(** ** [volume2gfx] *)

(** A value of a keyword argument that holds a colour or [None]. *)
Inductive color_value :=
| ColorNone
| ColorValue (c : pycolor).

(** The keyword arguments of [volume2gfx] the function looks at ([None]:
    the key is absent); the others go to octarine untouched. *)
Record volume_kwargs := {
  vk_color : option color_value;
  vk_c : option color_value
}.

(** A [navis.Volume] (or another mesh-like object): its [name] and [color]
    attributes, each possibly missing, and its mesh. *)
Record Volume := {
  vol_name : name_attr;
  vol_color : option color_value;
  vol_vertices : list xyz;
  vol_faces : list (nat * nat * nat)
}.

(** What [_object_id] of a volume visual holds. *)
Inductive volume_object_id :=
| OidNone
| OidName (s : string)
| OidUUID (u : UUID).

(** The visual of a volume: the arguments of the call of
    [oc.visuals.mesh2gfx(x, **kwargs)] and the [_object_id] set on it. *)
Record volume_visual := {
  vv_source : Volume;
  vv_kwargs : volume_kwargs;
  vv_object_id : volume_object_id
}.

(** The default colour [(0.95, 0.95, 0.95, 0.1)]. *)
Definition volume_default_color : pycolor :=
  CArr1 [SFdiv 53 1024 (of_Z 95) (of_Z 100);
         SFdiv 53 1024 (of_Z 95) (of_Z 100);
         SFdiv 53 1024 (of_Z 95) (of_Z 100);
         tenth].

(** Lines 26-32: "Parse the color argument(s)". *)
Definition volume_color_kwargs (x : Volume) (kw : volume_kwargs)
    : volume_kwargs :=
  match vk_color kw with
  | Some _ => kw
  | None =>
      match vk_c kw with
      | Some c => {| vk_color := Some c; vk_c := None |}
      | None =>
          match vol_color x with
          | Some (ColorValue c) =>
              {| vk_color := Some (ColorValue c); vk_c := None |}
          | _ =>
              {| vk_color := Some (ColorValue volume_default_color);
                 vk_c := None |}
          end
      end
  end.

(** [volume2gfx(x, **kwargs)]: the default of [getattr] is evaluated, so a
    UUID is drawn also when the attribute [name] exists. *)
Definition volume2gfx (x : Volume) (kw : volume_kwargs) : M volume_visual :=
  let kw := volume_color_kwargs x kw in
  vis <- ext oc_mesh2gfx
             {| vv_source := x; vv_kwargs := kw; vv_object_id := OidNone |} ;;
  u <- uuid4 ;;
  ret {| vv_source := vv_source vis;
         vv_kwargs := vv_kwargs vis;
         vv_object_id := match vol_name x with
                         | NameMissing => OidUUID u
                         | NameNone => OidNone
                         | NameStr s => OidName s
                         end |}.

(** ** More neurons and arguments for examples *)

Module Samples.

Import Model.

(** A skeleton of one node, a mesh neuron without faces, and a neuron of
    another kind. *)
Definition skeleton_one_node : TreeNeuron :=
  {| t_base := {| id := IdInt 1; name := NameStr "n1";
                  connectors := None |};
     label := "n1";
     nodes := [mk_node 1 0 0 0 1];
     segments := [];
     soma := SomaNone;
     soma_radius := RadiusColumn "radius" |}.

Definition mesh_without_faces : MeshNeuron :=
  {| m_base := {| id := IdInt 2; name := NameStr "m2";
                  connectors := None |};
     vertices := [];
     faces := [] |}.

Definition other_neuron : neuron :=
  OtherNeuron {| id := IdInt 3; name := NameNone; connectors := None |}.

Definition skipped_neurons : list neuron :=
  [Tree skeleton_one_node; Mesh mesh_without_faces; other_neuron].

(** The three-node skeleton with two presynapses and one postsynapse. *)
Definition three_connectors : list connector :=
  [mk_connector 5 5 5 0 2; mk_connector 6 6 6 1 3; mk_connector 7 7 7 0 1].

Definition skeleton_three_connectors : TreeNeuron :=
  {| t_base := {| id := IdInt 7; name := NameStr "n7";
                  connectors := Some three_connectors |};
     label := "n7";
     nodes := nodes skeleton3;
     segments := segments skeleton3;
     soma := SomaOne 1;
     soma_radius := RadiusColumn "radius" |}.



(** [radius=True, connectors=True] *)
Definition kw_radius_connectors : kwargs :=
  {| kw_c := None; kw_colors := None; kw_palette := None;
     kw_color_by := None; kw_shade_by := None; kw_alpha := None;
     kw_vmin := None; kw_vmax := None; kw_smin := None; kw_smax := None;
     kw_na := None; kw_clusters := None; kw_radius := Some true;
     kw_connectors := Some true; kw_connectors_only := None;
     kw_synapse_layout := None; kw_cn_colors := None;
     kw_linewidth := None; kw_lw := None; kw_soma := None;
     kw_dps_scale_vec := None; kw_random_ids := None |}.

Definition radius_visuals : list visual :=
  Eval vm_compute in
    match fst (neuron2gfx (InNeuronList two_neurons) None
                          kw_radius_connectors w0) with
    | inr vs => vs
    | inl _ => []
    end.

Definition radius_world : world :=
  Eval vm_compute in
    snd (neuron2gfx (InNeuronList two_neurons) None kw_radius_connectors w0).

(** [add_neurons(x, connectors=True)] *)
Definition args_connectors : add_neurons_args :=
  {| a_color := None; a_alpha := of_Z 1; a_connectors := true;
     a_cn_colors := None; a_color_by := None; a_shade_by := None;
     a_palette := None; a_vmin := None; a_vmax := None;
     a_linewidth := of_Z 1; a_synapse_layout := None; a_radius := false;
     a_center := true; a_clear := false; a_random_ids := false |}.

(** The outcome of [add_neurons] on the mesh neuron with the defaults. *)
Definition added_mesh_world : world :=
  Eval vm_compute in
    snd (add_neurons (InNeuron (Mesh mesh1)) add_neurons_defaults w0).

(** A shading array of two vertices with alphas 0 and 1. *)
Definition shading2 : list crow :=
  [[tenth; tenth; tenth; zero]; [tenth; tenth; tenth; one]].

End Samples.


(** * Properties *)

(** ** Reasoning in the monad *)

Lemma bind_inr {A B} (m : M A) (k : A -> M B) w b w2 :
  bind m k w = (inr b, w2) ->
  exists a w1, m w = (inr a, w1) /\ k a w1 = (inr b, w2).
Proof.
  unfold bind. destruct (m w) as [[e | a] w1]; intros E.
  - discriminate.
  - exists a, w1. auto.
Qed.

Lemma bind_run {A B} (m : M A) (k : A -> M B) w a w1 :
  m w = (inr a, w1) -> bind m k w = k a w1.
Proof. unfold bind. intros ->. reflexivity. Qed.

Lemma bind_fail {A B} (m : M A) (k : A -> M B) w e w1 :
  m w = (inl e, w1) -> bind m k w = (inl e, w1).
Proof. unfold bind. intros ->. reflexivity. Qed.

Lemma lift_inr {A} (r : exn + A) w a w1 :
  lift r w = (inr a, w1) -> r = inr a /\ w1 = w.
Proof.
  destruct r; unfold lift, raise, ret; intros E; inversion E; auto.
Qed.

Lemma ret_inr {A} (a b : A) w w1 :
  ret a w = (inr b, w1) -> b = a /\ w1 = w.
Proof. unfold ret. intros E. inversion E. auto. Qed.

Lemma ext_inr {A} c (r a : A) w w1 :
  ext c r w = (inr a, w1) -> a = r /\ w1 = record_event (Called c) w.
Proof. unfold ext, bind, emit, ret. intros E. inversion E. auto. Qed.

Lemma warn_run m w : warn m w = (inr tt, record_event (Warned m) w).
Proof. reflexivity. Qed.

(** Inversion of a successful run, one bind at a time. *)
Ltac inv_run H :=
  cbv beta in H;
  lazymatch type of H with
  | bind _ _ _ = (inr _, _) =>
      let a := fresh "a" in
      let w := fresh "w" in
      let H1 := fresh "H" in
      apply bind_inr in H; destruct H as (a & w & H1 & H);
      inv_run H1; inv_run H
  | lift _ _ = (inr _, _) =>
      let E := fresh "E" in
      apply lift_inr in H; destruct H as (E & ->);
      try (injection E as E; subst)
  | ret _ _ = (inr _, _) =>
      let E := fresh "E" in
      apply ret_inr in H; destruct H as (E & ->);
      subst; try (injection E; clear E; intros; subst)
  | ext _ _ _ = (inr _, _) =>
      apply ext_inr in H; destruct H as (-> & ->)
  | raise _ _ = (inr _, _) => discriminate H
  | _ => idtac
  end.

(** A successful [for_each] is the concatenation of successful runs of its
    body, one per element. *)
Lemma for_each_inr {A B} (body : A -> M (list B)) (P : A -> list B -> Prop) :
  (forall a w vs w1, body a w = (inr vs, w1) -> P a vs) ->
  forall l w vs w1,
    for_each l body w = (inr vs, w1) ->
    exists groups, vs = List.concat groups /\ Forall2 P l groups.
Proof.
  intros HP. induction l as [| a l IH]; simpl; intros w vs w1 E.
  - inv_run E. exists []. split; [reflexivity | constructor].
  - inv_run E.
    match goal with
    | Hb : body _ _ = _, Hl : for_each _ _ _ = _ |- _ =>
        destruct (IH _ _ _ Hl) as (groups & -> & F);
        exists (a0 :: groups); split; [reflexivity |];
        constructor; eauto
    end.
Qed.

(** ** Calls that draw no UUID *)

Lemma frame_ret {A} (a : A) : frame (ret a).
Proof. intros w. split; reflexivity. Qed.

Lemma frame_raise {A} e : frame (@raise A e).
Proof. intros w. split; reflexivity. Qed.

Lemma frame_emit e : frame (emit e).
Proof. intros w. split; reflexivity. Qed.

Lemma frame_bind {A B} (m : M A) (k : A -> M B) :
  frame m -> (forall a, frame (k a)) -> frame (bind m k).
Proof.
  intros Hm Hk w. unfold bind. specialize (Hm w).
  destruct (m w) as [[e | a] w1]; simpl in *; [exact Hm |].
  destruct (Hk a w1) as [E1 E2]. destruct Hm as [E3 E4].
  split; congruence.
Qed.

Lemma frame_lift {A} (r : exn + A) : frame (lift r).
Proof. destruct r; [apply frame_raise | apply frame_ret]. Qed.

Lemma frame_ext {A} c (r : A) : frame (ext c r).
Proof. apply frame_bind; [apply frame_emit | intros; apply frame_ret]. Qed.

Lemma frame_ext_try {A} c (r : exn + A) : frame (ext_try c r).
Proof.
  apply frame_bind; [apply frame_emit |].
  intros _. destruct r; [apply frame_raise | apply frame_ret].
Qed.

Lemma frame_for_each {A B} (l : list A) (body : A -> M (list B)) :
  (forall a, frame (body a)) -> frame (for_each l body).
Proof.
  intros Hb. induction l as [| a l IH]; simpl.
  - apply frame_ret.
  - apply frame_bind; [apply Hb |]. intros vs.
    apply frame_bind; [apply IH |]. intros rest. apply frame_ret.
Qed.

Create HintDb frame.
#[export] Hint Resolve frame_ret frame_raise frame_emit frame_lift frame_ext
  frame_ext_try : frame.

(** [frame] by the structure of the computation. *)
Ltac frame_tac :=
  repeat first
    [ progress auto with frame
    | apply frame_for_each; intros
    | apply frame_bind; [| intros]
    | match goal with
      | |- frame (if ?b then _ else _) => destruct b
      | |- frame (match ?x with _ => _ end) => destruct x
      | |- frame (warn _) => apply frame_emit
      end ].

Lemma frame_run {A} (m : M A) w r w1 :
  frame m -> m w = (r, w1) -> same_uuids w w1.
Proof. intros F E. specialize (F w). rewrite E in F. exact F. Qed.

Section Frames.

Context `{Navis}.

Lemma frame_connectors2gfx n c oid kw : frame (connectors2gfx n c oid kw).
Proof.
  unfold connectors2gfx, connectors2gfx_type. frame_tac.
Qed.

Lemma frame_mesh2gfx m c oid kw : frame (mesh2gfx m c oid kw).
Proof. unfold mesh2gfx. frame_tac. Qed.

Lemma frame_voxel2gfx v c oid kw : frame (voxel2gfx v c oid kw).
Proof. unfold voxel2gfx. frame_tac. Qed.

Lemma frame_soma2gfx t c oid s : frame (soma2gfx t c oid s).
Proof. unfold soma2gfx. frame_tac. Qed.

Lemma frame_skeleton2gfx t c oid kw : frame (skeleton2gfx t c oid kw).
Proof.
  unfold skeleton2gfx.
  destruct (nodes t) as [| n0 [| n1 tbl]]; frame_tac;
    apply frame_soma2gfx.
Qed.

Lemma frame_dotprop2gfx d c oid kw : frame (dotprop2gfx d c oid kw).
Proof.
  unfold dotprop2gfx. destruct (points d); frame_tac.
  apply frame_skeleton2gfx.
Qed.

Lemma frame_with_radius kw n : frame (with_radius kw n).
Proof. unfold with_radius. frame_tac. Qed.

Lemma frame_convert kw n c oid : frame (convert kw n c oid).
Proof.
  unfold convert. frame_tac;
    auto using frame_skeleton2gfx, frame_mesh2gfx, frame_dotprop2gfx,
      frame_voxel2gfx, frame_connectors2gfx.
Qed.

Lemma frame_resolve_colormap x color kw : frame (resolve_colormap x color kw).
Proof. unfold resolve_colormap. frame_tac. Qed.

End Frames.

(** ** Object ids *)

Lemma tagged_nil oid : tagged oid [].
Proof. constructor. Qed.

Lemma tagged_app oid vs1 vs2 :
  tagged oid vs1 -> tagged oid vs2 -> tagged oid (vs1 ++ vs2).
Proof. intros. apply Forall_app. auto. Qed.

Lemma tagged_custom oid v part n :
  tagged oid [add_custom_attributes v part n oid].
Proof. repeat constructor. Qed.

Lemma tagged_concat oid (A : Type) (l : list A) groups :
  Forall2 (fun _ g => tagged oid g) l groups -> tagged oid (List.concat groups).
Proof.
  induction 1; simpl; [apply tagged_nil | apply tagged_app; auto].
Qed.

Create HintDb tagged.
#[export] Hint Resolve tagged_nil tagged_app tagged_custom : tagged.

Section ObjectIds.

Context `{Navis}.

Lemma connectors2gfx_tagged n c oid kw w vs w1 :
  connectors2gfx n c oid kw w = (inr vs, w1) -> tagged oid vs.
Proof.
  unfold connectors2gfx. intros E. inv_run E.
  apply for_each_inr with (P := fun _ g => tagged oid g) in E.
  - destruct E as (groups & -> & F). eapply tagged_concat; eauto.
  - clear. intros j w vs w1 E. unfold connectors2gfx_type in E.
    inv_run E. auto with tagged.
Qed.

Lemma mesh2gfx_tagged m c oid kw w vs w1 :
  mesh2gfx m c oid kw w = (inr vs, w1) -> tagged oid vs.
Proof.
  unfold mesh2gfx. destruct (faces m); intros E; inv_run E;
    auto with tagged.
Qed.

Lemma voxel2gfx_tagged v c oid kw w vs w1 :
  voxel2gfx v c oid kw w = (inr vs, w1) -> tagged oid vs.
Proof. unfold voxel2gfx. intros E. inv_run E. auto with tagged. Qed.

Lemma soma2gfx_tagged t c oid s w vs w1 :
  soma2gfx t c oid s w = (inr vs, w1) -> tagged oid vs.
Proof.
  unfold soma2gfx. destruct s; intros E; inv_run E; auto with tagged.
Qed.

Lemma skeleton2gfx_tagged t c oid kw w vs w1 :
  skeleton2gfx t c oid kw w = (inr vs, w1) -> tagged oid vs.
Proof.
  unfold skeleton2gfx.
  destruct (nodes t) as [| n0 [| n1 tbl]]; intros E.
  - inv_run E. auto with tagged.
  - inv_run E. auto with tagged.
  - destruct (get (kw_connectors_only kw) false).
    + inv_run E. auto with tagged.
    + inv_run E. constructor; [reflexivity |].
      match goal with
      | Hs : (if get (kw_soma kw) true then _ else _) _ = _ |- _ =>
          destruct (get (kw_soma kw) true);
          [destruct (Nat.leb 10 _) |]; inv_run Hs; auto with tagged;
          apply for_each_inr with (P := fun _ g => tagged oid g) in Hs;
          [destruct Hs as (groups & -> & F); eapply tagged_concat; eauto
          | intros; eapply soma2gfx_tagged; eauto]
      end.
Qed.

Lemma dotprop2gfx_tagged d c oid kw w vs w1 :
  dotprop2gfx d c oid kw w = (inr vs, w1) -> tagged oid vs.
Proof.
  unfold dotprop2gfx. destruct (points d); intros E; inv_run E;
    eauto using skeleton2gfx_tagged with tagged.
Qed.

Lemma convert_tagged kw n c oid w vs w1 :
  convert kw n c oid w = (inr vs, w1) -> tagged oid vs.
Proof.
  unfold convert. intros E. inv_run E. apply tagged_app.
  - match goal with
    | Hn : (if negb _ then _ else _) _ = _ |- _ =>
        destruct (negb (get (kw_connectors_only kw) false));
        [destruct n |]; inv_run Hn;
        eauto using skeleton2gfx_tagged, mesh2gfx_tagged,
          dotprop2gfx_tagged, voxel2gfx_tagged with tagged
    end.
  - match goal with
    | Hc : (if _ && _ then _ else _) _ = _ |- _ =>
        destruct (_ && _) in Hc; inv_run Hc;
        eauto using connectors2gfx_tagged with tagged
    end.
Qed.

End ObjectIds.

(** ** The loop over the neurons *)

Lemma uuid4_inr w u w1 :
  uuid4 w = (inr u, w1) ->
  u = uuid_source w (uuid_drawn w)
  /\ uuid_source w1 = uuid_source w
  /\ uuid_drawn w1 = S (uuid_drawn w).
Proof. unfold uuid4. intros E. inversion E. subst. auto. Qed.

Section Loop.

Context `{Navis}.

Lemma neuron2gfx_loop_groups kw cm :
  forall xs i w vs w1,
    neuron2gfx_loop kw cm i xs w = (inr vs, w1) ->
    uuid_source w1 = uuid_source w
    /\ uuid_drawn w1 = uuid_drawn w + List.length xs
    /\ exists groups,
         vs = List.concat groups
         /\ List.length groups = List.length xs
         /\ forall j g, nth_error groups j = Some g ->
                        converted_at kw xs w j g.
Proof.
  induction xs as [| n xs IH]; simpl; intros i w vs w1 E.
  - inv_run E. repeat split; try lia.
    exists []. repeat split. intros [| j] g; discriminate.
  - unfold neuron2gfx_body in E. inv_run E.
    match goal with
    | Hu : uuid4 _ = _, Hr : with_radius _ _ _ = _,
      Hc : convert _ _ _ _ _ = _, Hl : neuron2gfx_loop _ _ _ _ _ = _ |- _ =>
        apply uuid4_inr in Hu; destruct Hu as (-> & Es & Ed);
        pose proof (frame_run _ _ _ _ (frame_with_radius _ _) Hr) as [Rs Rd];
        pose proof (frame_run _ _ _ _ (frame_convert _ _ _ _) Hc) as [Cs Cd];
        destruct (IH _ _ _ _ Hl) as (Ls & Ld & groups & -> & Lg & Lc)
    end.
    split; [congruence |]. split; [lia |].
    match goal with
    | Hc : convert _ _ _ ?oid _ = (inr ?g0, _) |- _ =>
        exists (g0 :: groups)
    end.
    split; [reflexivity |]. split; [simpl; lia |].
    intros [| j] g Ej; simpl in Ej.
    + inversion Ej; subst. unfold converted_at.
      rewrite Nat.add_0_r. repeat eexists; eauto.
    + destruct (Lc _ _ Ej) as (m & m' & c & wa & wa' & wb & E1 & E2 & E3).
      unfold converted_at. exists m, m', c, wa, wa', wb.
      repeat split; auto.
      match goal with
      | Hl : neuron2gfx_loop _ _ _ _ ?wl = _ |- _ =>
          replace (uuid_drawn w + S j) with (uuid_drawn wl + j) by lia;
          replace (uuid_source w) with (uuid_source wl) by congruence
      end.
      exact E3.
Qed.

End Loop.

(** ** The dispatcher *)

Section Dispatcher.

Context `{Navis}.

Lemma as_neuronlist_inr x xs w w1 :
  as_neuronlist x w = (inr xs, w1) -> xs = input_neurons x /\ w1 = w.
Proof.
  destruct x; unfold as_neuronlist; intros E; inv_run E; auto.
Qed.

(** C8: every visual the conversion pipeline returns carries an object id,
    and the visuals split, in input order, into one group per input neuron:
    the group at position [i] is what [convert] produced for the neuron at
    position [i], and all its visuals carry the same object id, the [i]-th
    UUID drawn by the call. *)
Theorem object_id_invariant x color kw w vs w1 :
  neuron2gfx x color kw w = (inr vs, w1) ->
  Forall (fun v => _object_id v <> None) vs
  /\ exists groups,
       vs = List.concat groups
       /\ List.length groups = List.length (input_neurons x)
       /\ forall i g,
            nth_error groups i = Some g ->
            converted_at kw (input_neurons x) w i g
            /\ tagged (uuid_source w (uuid_drawn w + i)) g.
Proof.
  unfold neuron2gfx. intros E. inv_run E.
  match goal with
  | Ha : as_neuronlist _ _ = _, Hr : resolve_colormap _ _ _ _ = _ |- _ =>
      apply as_neuronlist_inr in Ha; destruct Ha as (-> & ->);
      pose proof (frame_run _ _ _ _ (frame_resolve_colormap _ _ _) Hr)
        as [Rs Rd]
  end.
  apply neuron2gfx_loop_groups in E.
  destruct E as (_ & _ & groups & -> & Lg & Lc).
  assert (G : forall i g,
             nth_error groups i = Some g ->
             converted_at kw (input_neurons x) w i g
             /\ tagged (uuid_source w (uuid_drawn w + i)) g).
  { intros i g Ei. destruct (Lc _ _ Ei)
      as (n & n' & c & wa & wa' & wb & E1 & E2 & E3).
    rewrite Rs, Rd in E3. split.
    - exists n, n', c, wa, wa', wb. auto.
    - eapply convert_tagged; eauto. }
  split.
  - apply Forall_concat. apply Forall_forall. intros g Hg.
    apply In_nth_error in Hg. destruct Hg as [i Ei].
    destruct (G _ _ Ei) as [_ T].
    eapply Forall_impl; [| exact T]. simpl. intros v ->. discriminate.
  - exists groups. auto.
Qed.

Lemma bind_ext {A B} (m : M A) (k1 k2 : A -> M B) w :
  (forall a w1, k1 a w1 = k2 a w1) -> bind m k1 w = bind m k2 w.
Proof.
  intros E. unfold bind. destruct (m w) as [[e | a] w1]; auto.
Qed.

Lemma bind_ext_l {A B} (m1 m2 : M A) (k : A -> M B) w :
  (forall w1, m1 w1 = m2 w1) -> bind m1 k w = bind m2 k w.
Proof. intros E. unfold bind. rewrite E. reflexivity. Qed.

Lemma getitem_app {A} (pre : list A) c rest :
  getitem (pre ++ c :: rest) (List.length pre) = inr c.
Proof.
  unfold getitem. rewrite nth_error_app2 by lia.
  rewrite Nat.sub_diag. reflexivity.
Qed.

Lemma neuron2gfx_loop_pairs kw :
  forall xs cm pre w,
    List.length cm = List.length xs ->
    neuron2gfx_loop kw (pre ++ cm) (List.length pre) xs w
    = for_each (combine xs cm) (convert_pair kw) w.
Proof.
  induction xs as [| n xs IH]; intros cm pre w L.
  - reflexivity.
  - destruct cm as [| c cm]; [discriminate |]. simpl.
    unfold neuron2gfx_body, convert_pair. rewrite getitem_app. simpl.
    apply bind_ext. intros vs wv.
    replace (pre ++ c :: cm) with ((pre ++ [c]) ++ cm)
      by (rewrite <- app_assoc; reflexivity).
    replace (S (List.length pre)) with (List.length (pre ++ [c]))
      by (rewrite length_app; simpl; lia).
    apply bind_ext_l. intros wl. apply IH. simpl in L. lia.
Qed.

End Dispatcher.

(** ** Colour resolution *)

Lemma ext_try_inr {A} c (r : exn + A) a w w1 :
  ext_try c r w = (inr a, w1) ->
  r = inr a /\ w1 = record_event (Called c) w.
Proof.
  unfold ext_try, bind, emit. simpl. destruct r; unfold raise, ret;
    intros E; inversion E; auto.
Qed.

Lemma merge_alphamap_length :
  forall colormap alphamap r,
    merge_alphamap colormap alphamap = inr r ->
    List.length r = Nat.min (List.length colormap) (List.length alphamap).
Proof.
  induction colormap as [| c colormap IH]; intros [| a alphamap] r E;
    simpl in E; try (inversion E; reflexivity).
  destruct (merge_alpha c a) as [e | c']; simpl in E; [discriminate |].
  destruct (merge_alphamap colormap alphamap) as [e | rest] eqn:Er;
    simpl in E; [discriminate |].
  inversion E. simpl. f_equal. apply IH. exact Er.
Qed.

Section Resolution.

Context `{Navis}.

Lemma resolve_colormap_inr xs color kw w cm w1 :
  resolver_contract ->
  resolve_colormap xs color kw w = (inr cm, w1) ->
  List.length cm = List.length xs
  /\ exists evs,
       events w1 = events w ++ evs
       /\ forallb is_resolver_call evs = true.
Proof.
  intros [Cp Cv]. unfold resolve_colormap. intros E.
  apply bind_inr in E. destruct E as (cm0 & wm & E0 & E).
  assert (R0 : List.length cm0 = List.length xs
               /\ exists evs, events wm = events w ++ evs
                              /\ forallb is_resolver_call evs = true).
  { destruct (kw_color_by kw) as [color_by |].
    - destruct (palette_missing (kw_palette kw)); [discriminate |].
      apply bind_inr in E0. destruct E0 as (a & wa & Ea & E0).
      apply ext_try_inr in Ea. destruct Ea as [Ea ->].
      apply ret_inr in E0. destruct E0 as [-> ->].
      rewrite length_map. split; [eapply Cv; eauto |].
      eexists. split; [reflexivity | reflexivity].
    - apply ext_inr in E0. destruct E0 as [-> ->].
      split; [apply Cp |]. eexists. split; reflexivity. }
  destruct R0 as (L0 & evs0 & Ev0 & F0).
  destruct (kw_shade_by kw) as [shade_by |].
  - apply bind_inr in E. destruct E as (am & wa & Ea & E).
    apply ext_try_inr in Ea. destruct Ea as [Ea ->].
    apply lift_inr in E. destruct E as [E ->].
    apply merge_alphamap_length in E. apply Cv in Ea.
    split; [lia |].
    exists (evs0 ++ [Called (navis_vertex_colors shade_by)]).
    split.
    + simpl. rewrite Ev0, app_assoc. reflexivity.
    + rewrite forallb_app, F0. reflexivity.
  - apply ret_inr in E. destruct E as [-> ->].
    split; [exact L0 |]. exists evs0. auto.
Qed.

(** C7: given that navis resolves one colour entry per neuron, a successful
    resolution for a collection of N neurons yields exactly N entries and
    performs only resolver calls; the conversion then runs on the world the
    resolution left, and converts the neuron at each position with the
    colour entry at the same position. *)
Theorem colors_resolved_then_positional xs color kw w cm w1 :
  resolver_contract ->
  resolve_colormap xs color kw w = (inr cm, w1) ->
  List.length cm = List.length xs
  /\ (exists evs,
         events w1 = events w ++ evs
         /\ forallb is_resolver_call evs = true)
  /\ uuid_drawn w1 = uuid_drawn w
  /\ neuron2gfx (InNeuronList xs) color kw w
     = for_each (combine xs cm) (convert_pair kw) w1.
Proof.
  intros C E.
  destruct (resolve_colormap_inr _ _ _ _ _ _ C E) as (L & Ev).
  split; [exact L |]. split; [exact Ev |].
  split; [eapply frame_run; [apply frame_resolve_colormap | exact E] |].
  unfold neuron2gfx. simpl as_neuronlist.
  unfold bind at 1. simpl. unfold bind at 1. rewrite E.
  apply (neuron2gfx_loop_pairs kw xs cm [] w1). exact L.
Qed.

(** C5: with [color_by] set and no palette, the converter raises before it
    does anything else: no colour is resolved, no UUID drawn, no neuron
    converted, and the world is left as it was.  On a neuron or a list of
    neurons the error is the [ValueError] on the missing palette. *)
Theorem color_by_requires_palette x color kw w color_by :
  kw_color_by kw = Some color_by ->
  palette_missing (kw_palette kw) = true ->
  exists e,
    neuron2gfx x color kw w = (inl e, w)
    /\ (is_neuron x || is_neuronlist x = true ->
        e = ValueError palette_message).
Proof.
  intros Eb Ep. unfold neuron2gfx, resolve_colormap.
  destruct x; simpl; unfold bind; simpl; rewrite ?Eb, ?Ep; simpl;
    eexists; (split; [reflexivity |]); intros Hx;
    try reflexivity; discriminate.
Qed.

End Resolution.

(** ** The connector converter *)

(** Three rows per connector in the array of lines 236-239. *)
Lemma connector_line_coords_length pos tn_coords :
  List.length tn_coords = List.length pos ->
  List.length (connector_line_coords pos tn_coords) = 3 * List.length pos.
Proof.
  unfold connector_line_coords. rewrite length_map.
  revert tn_coords. induction pos as [| p pos IH]; intros [| t tn] L;
    simpl in *; try discriminate; [reflexivity |].
  rewrite IH by lia. lia.
Qed.

Lemma connector_line_coords_rows p pos t tn_coords :
  connector_line_coords (p :: pos) (t :: tn_coords)
  = xyz_map to_f32 p :: xyz_map to_f32 t :: nan_row
      :: connector_line_coords pos tn_coords.
Proof. reflexivity. Qed.

Lemma loc_xyz_length tbl : forall ids r,
  loc_xyz tbl ids = inr r -> List.length r = List.length ids.
Proof.
  induction ids as [| s ids IH]; simpl; intros r E.
  - inversion E. reflexivity.
  - destruct (loc tbl s); [discriminate |].
    destruct (loc_xyz tbl ids); [discriminate |].
    inversion E. simpl. f_equal. apply IH. reflexivity.
Qed.

Section Connectors.

Context `{Navis}.

Lemma connectors2gfx_type_mesh m cns cn_lay mode c oid kw j w :
  lay_display cn_lay = Some mode ->
  exists v w1,
    connectors2gfx_type (Mesh m) cns cn_lay c oid kw j w = (inr [v], w1)
    /\ is_points v = true.
Proof.
  intros Ed. unfold connectors2gfx_type. rewrite Ed.
  unfold bind, ext, emit, ret. simpl. rewrite orb_true_r.
  eexists. eexists. split; reflexivity.
Qed.

Lemma for_each_mesh_types m cns cn_lay mode c oid kw :
  lay_display cn_lay = Some mode ->
  forall js w,
    exists vs w1,
      for_each js (connectors2gfx_type (Mesh m) cns cn_lay c oid kw) w
      = (inr vs, w1)
      /\ List.length vs = List.length js
      /\ forallb is_points vs = true.
Proof.
  intros Ed. induction js as [| j js IH]; intros w; simpl.
  - exists [], w. repeat split.
  - destruct (connectors2gfx_type_mesh m cns cn_lay mode c oid kw j w Ed)
      as (v & wv & Ev & Pv).
    destruct (IH wv) as (vs & w1 & Evs & L & P).
    exists (v :: vs), w1. unfold bind. rewrite Ev, Evs. unfold ret.
    simpl. rewrite Pv, P, L. repeat split.
Qed.

(** C9: on a mesh neuron, whatever display mode the layout configures, the
    connector converter returns one point cloud per connector type of the
    neuron (at least one when the neuron has a connector) and raises
    nothing. *)
Theorem mesh_connectors_are_points m c oid kw w cn_lay mode cns :
  connector_layout kw = inr cn_lay ->
  lay_display cn_lay = Some mode ->
  connectors (m_base m) = Some cns ->
  exists vs w1,
    connectors2gfx (Mesh m) c oid kw w = (inr vs, w1)
    /\ List.length vs = List.length (unique (map cn_type cns))
    /\ forallb is_points vs = true
    /\ (cns <> [] -> vs <> []).
Proof.
  intros El Ed Ec. unfold connectors2gfx. rewrite El. simpl neuron_base.
  rewrite Ec.
  destruct (for_each_mesh_types m cns cn_lay mode c oid kw Ed
              (unique (map cn_type cns)) w) as (vs & w1 & E & L & P).
  exists vs, w1. unfold bind, lift, ret. simpl. rewrite E.
  repeat split; auto.
  intros Hc ->. destruct cns; [congruence | discriminate].
Qed.

(** C3, amended: on a neuron that is not a mesh neuron and has at least one
    connector, a configured display mode other than "circles" and "lines"
    makes the connector converter raise [ValueError]; no visual is
    returned. *)
Theorem unknown_display_mode_raises n c oid kw w cn_lay mode cn cns :
  is_MeshNeuron n = false ->
  connector_layout kw = inr cn_lay ->
  lay_display cn_lay = Some mode ->
  mode <> "circles" ->
  mode <> "lines" ->
  connectors (neuron_base n) = Some (cn :: cns) ->
  exists w1,
    connectors2gfx n c oid kw w
    = (inl (ValueError ("Unknown connector display mode "
                          ++ quoted mode)%string), w1).
Proof.
  intros Em El Ed Nc Nl Ec. unfold connectors2gfx. rewrite El, Ec.
  apply String.eqb_neq in Nc. apply String.eqb_neq in Nl.
  simpl. unfold connectors2gfx_type, bind, ext, emit, ret, raise, lift.
  simpl. rewrite Ed. simpl. rewrite Em, Nc, Nl. simpl.
  eexists. reflexivity.
Qed.

(** In "lines" mode on a skeleton, every visual the connector converter
    returns is a line built without coordinates. *)
Lemma connectors2gfx_lines_no_coords t c oid kw w cn_lay vs w1 :
  connector_layout kw = inr cn_lay ->
  lay_display cn_lay = Some "lines" ->
  connectors2gfx (Tree t) c oid kw w = (inr vs, w1) ->
  Forall (fun v => exists lw col, obj_of v = Line None lw col) vs.
Proof.
  intros El Ed. unfold connectors2gfx. rewrite El. intros E. inv_run E.
  apply for_each_inr
    with (P := fun _ g =>
                 Forall (fun v => exists lw col, obj_of v = Line None lw col) g)
    in E.
  - destruct E as (groups & -> & F). apply Forall_concat.
    clear - F. induction F; constructor; auto.
  - clear - Ed. intros j w vs w1 E. unfold connectors2gfx_type in E.
    rewrite Ed in E. simpl in E. inv_run E.
    match goal with
    | Hc : context [String.eqb "lines" "circles"] |- _ =>
        change (String.eqb "lines" "circles") with false in Hc;
        change (String.eqb "lines" "lines") with true in Hc;
        simpl in Hc; inv_run Hc
    end.
    repeat constructor. simpl. eauto.
Qed.

End Connectors.

(** ** The skeleton converter *)

Lemma warnings_warned m w :
  warnings (record_event (Warned m) w) = warnings w ++ [m].
Proof. unfold warnings. simpl. rewrite flat_map_app. reflexivity. Qed.

Lemma warnings_called c w :
  warnings (record_event (Called c) w) = warnings w.
Proof.
  unfold warnings. simpl. rewrite flat_map_app. simpl.
  apply app_nil_r.
Qed.

Lemma map_repeat {A B} (f : A -> B) a n :
  map f (repeat a n) = repeat (f a) n.
Proof. induction n; simpl; congruence. Qed.

Lemma is_cbreak_repeat n : is_cbreak (repeat nan n) = true.
Proof. induction n; simpl; auto. Qed.

(** The flattened coordinates: each block, then one row of NaN. *)
Lemma flatten_coords_cons b bs :
  flatten_coords (b :: bs)
  = inr (List.concat
           (map (fun t => map (xyz_map to_f32) t ++ [nan_row]) (b :: bs))).
Proof.
  unfold flatten_coords, vstack. remember (b :: bs) as blocks.
  destruct (map append_none_xyz blocks) eqn:Em; [subst; discriminate |].
  rewrite <- Em. f_equal. rewrite concat_map, map_map. f_equal.
  apply map_ext. intros t.
  unfold append_none_xyz. rewrite map_app, map_map. simpl. f_equal.
  apply map_ext. intros [[a0 b0] c0]. reflexivity.
Qed.

Lemma flatten_colors_cons b bs :
  flatten_colors (b :: bs)
  = inr (List.concat
           (map (fun t => map (map to_f32) t ++ [repeat nan (shape1 t)])
                (b :: bs))).
Proof.
  unfold flatten_colors, vstack. remember (b :: bs) as blocks.
  destruct (map append_none_crow blocks) eqn:Em; [subst; discriminate |].
  rewrite <- Em. f_equal. rewrite concat_map, map_map. f_equal.
  apply map_ext. intros t.
  unfold append_none_crow. rewrite map_app, map_map. simpl. f_equal.
  - apply map_ext. intros r. rewrite map_map. reflexivity.
  - rewrite map_repeat. reflexivity.
Qed.

Lemma length_concat_blocks {A B} (f : A -> B) (brk : list A -> B) l :
  List.length (List.concat (map (fun t => map f t ++ [brk t]) l))
  = list_sum (map (fun t => S (List.length t)) l).
Proof.
  induction l as [| t ts IH]; simpl; [reflexivity |].
  rewrite !length_app, length_map, IH. simpl. lia.
Qed.

(** Both flattened sequences have one row per point and one per block. *)
Lemma flatten_coords_length blocks rows :
  flatten_coords blocks = inr rows ->
  List.length rows
  = list_sum (map (fun t => S (List.length t)) blocks).
Proof.
  destruct blocks as [| b bs]; [discriminate |].
  rewrite flatten_coords_cons. intros E. injection E as <-.
  exact (length_concat_blocks (xyz_map to_f32) (fun _ => nan_row) (b :: bs)).
Qed.

Lemma flatten_colors_length blocks rows :
  flatten_colors blocks = inr rows ->
  List.length rows
  = list_sum (map (fun t => S (List.length t)) blocks).
Proof.
  destruct blocks as [| b bs]; [discriminate |].
  rewrite flatten_colors_cons. intros E. injection E as <-.
  exact (length_concat_blocks (map to_f32)
           (fun t => repeat nan (shape1 t)) (b :: bs)).
Qed.

(** Doubling a float is exact: the same mantissa, the next exponent. *)
Lemma mul_two_samples :
  map (fun r => mul r (of_Z 2)) [of_Z 3; tenth; of_Z 0; nan]
  = [of_Z 6; SFdiv 53 1024 (of_Z 1) (of_Z 5); of_Z 0; nan].
Proof. vm_compute. reflexivity. Qed.

(** Runs the leading binds of the goal whose first computation reduces to
    a result. *)
Ltac run_bind :=
  repeat (erewrite bind_run by reflexivity; cbv beta).

Section Skeletons.

Context `{Navis}.

(** The first visual the skeleton converter returns is the neurite line,
    with the flattened segments as coordinates. *)
Lemma skeleton2gfx_neurites t c oid kw w v vs w1 :
  skeleton2gfx t c oid kw w = (inr (v :: vs), w1) -> is_neurite_line t v.
Proof.
  unfold skeleton2gfx. intros E.
  destruct (nodes t) as [| n0 [| n1 tbl]];
    try (unfold bind, warn, emit, ret in E; simpl in E; discriminate E).
  destruct (get (kw_connectors_only kw) false); [discriminate E |].
  apply bind_inr in E. destruct E as (c' & wc & Ec & E).
  apply bind_inr in E. destruct E as (coords & ws & Es & E).
  assert (Ecoords : coords = segments_to_coords t).
  { destruct c'; inv_run Es; reflexivity. }
  subst coords. inv_run E.
  split; [reflexivity |]. exists a. do 2 eexists.
  split; [exact E0 | reflexivity].
Qed.

(** C4, amended: a skeleton of at least two nodes with line geometry that
    reports ten or more somas, converted without [connectors_only], yields
    exactly one visual, the neurite line, and so no soma; the warning on
    the number of somas is logged when soma plotting is on (the default)
    and no warning is logged when the caller turned it off. *)
Theorem many_somas_are_skipped t c oid kw w :
  10 <= List.length (make_iterable (soma t)) ->
  2 <= List.length (nodes t) ->
  has_line_geometry t c ->
  get (kw_connectors_only kw) false = false ->
  exists line w1,
    skeleton2gfx t c oid kw w = (inr [line], w1)
    /\ is_neurite_line t line
    /\ warnings w1
       = warnings w
           ++ (if get (kw_soma kw) true
               then [TooManySomas (id (t_base t))
                                  (List.length (make_iterable (soma t)))]
               else []).
Proof.
  intros Hs Hn [Hg Hc] Ho. unfold skeleton2gfx.
  destruct (nodes t) as [| n0 [| n1 tbl]]; simpl in Hn; try lia.
  rewrite Ho. apply Nat.leb_le in Hs.
  unfold is_neurite_line.
  destruct (segments_to_coords t) as [| b bs] eqn:Eseg; [congruence |].
  assert (Ef := flatten_coords_cons b bs).
  assert (Ec : exists c', asarray_f32 c = inr c'
                          /\ match c' with
                             | CArr2 a => segments_to_colors t a <> []
                             | _ => True
                             end).
  { destruct c; [contradiction | |]; simpl; eauto. }
  destruct Ec as (c' & Ec & Hc').
  rewrite Ec. run_bind.
  assert (Es : forall w0,
             match c' with
             | CArr2 a =>
                 coords <- ext navis_segments_to_coords (b :: bs) ;;
                 vertex_colors <-
                   lift (flatten_colors (segments_to_colors t a)) ;;
                 ret coords
             | _ => ext navis_segments_to_coords (b :: bs)
             end w0
             = (inr (b :: bs),
                record_event (Called navis_segments_to_coords) w0)).
  { intros w0. destruct c' as [s | rgba | a]; try reflexivity.
    destruct (segments_to_colors t a) as [| vb vbs]; [congruence |].
    run_bind. reflexivity. }
  rewrite (bind_run _ _ _ _ _ (Es w)). cbv beta.
  rewrite Ef. run_bind.
  destruct (get (kw_soma kw) true).
  - rewrite Hs. run_bind. eexists. eexists.
    split; [reflexivity |]. split.
    + split; [reflexivity |]. do 3 eexists. split; reflexivity.
    + rewrite warnings_warned, !warnings_called. reflexivity.
  - run_bind. eexists. eexists. split; [reflexivity |]. split.
    + split; [reflexivity |]. do 3 eexists. split; reflexivity.
    + rewrite !warnings_called, app_nil_r. reflexivity.
Qed.

(** A soma the loop renders: the only visual is a sphere of twice the
    resolved radius at the position of the soma node. *)
Lemma soma2gfx_inr t c oid s w vs w1 :
  soma2gfx t c oid (Some s) w = (inr vs, w1) ->
  exists n r col,
    loc (nodes t) s = inr n
    /\ resolve_soma_radius t n = inr r
    /\ vs = [add_custom_attributes
               (set_local
                  (new_visual (Sphere (mul r (of_Z 2)) 16 8 col))
                  (x n) (y n) (z n))
               "soma" (Tree t) oid].
Proof.
  unfold soma2gfx. intros E. inv_run E. eauto 7.
Qed.

(** C10: every soma visual the skeleton converter returns is a sphere whose
    radius is twice the resolved soma radius of a reported soma node (the
    node's column named by [soma_radius] when that is a string, else the
    number [soma_radius]), placed at the x, y, z of that node. *)
Theorem soma_sphere_geometry t c oid kw w vs w1 v :
  skeleton2gfx t c oid kw w = (inr vs, w1) ->
  In v vs ->
  _neuron_part v = Some "soma" ->
  exists s n r col,
    In (Some s) (make_iterable (soma t))
    /\ loc (nodes t) s = inr n
    /\ resolve_soma_radius t n = inr r
    /\ match soma_radius t with
       | RadiusColumn column => getattr_node n column = inr r
       | RadiusScalar r0 => r = r0
       end
    /\ obj_of v = Sphere (mul r (of_Z 2)) 16 8 col
    /\ local_x v = x n /\ local_y v = y n /\ local_z v = z n.
Proof.
  unfold skeleton2gfx. intros E Hv Hp.
  set (tb := nodes t) in E at 1. clearbody tb.
  destruct tb as [| n0 [| n1 tbl]].
  - inv_run E. contradiction.
  - inv_run E. contradiction.
  - destruct (get (kw_connectors_only kw) false).
    { inv_run E. contradiction. }
    inv_run E. destruct Hv as [<- | Hv]; [discriminate Hp |].
    match goal with
    | Hs : (if get (kw_soma kw) true then _ else _) _ = _ |- _ =>
        destruct (get (kw_soma kw) true);
        [destruct (Nat.leb 10 _) |]; inv_run Hs; try contradiction;
        apply for_each_inr
          with (P := fun s g =>
                       forall v, In v g ->
                         exists s0 n r col,
                           s = Some s0
                           /\ loc (nodes t) s0 = inr n
                           /\ resolve_soma_radius t n = inr r
                           /\ obj_of v = Sphere (mul r (of_Z 2)) 16 8 col
                           /\ local_x v = x n /\ local_y v = y n
                           /\ local_z v = z n)
          in Hs
    end.
    + match goal with
      | Hs : exists groups, _ |- _ => destruct Hs as (groups & -> & F)
      end.
      apply in_concat in Hv. destruct Hv as (g & Hg & Hvg).
      assert (X : exists s, In s (make_iterable (soma t))
                            /\ forall v, In v g ->
                                 exists s0 n r col,
                                   s = Some s0
                                   /\ loc (nodes t) s0 = inr n
                                   /\ resolve_soma_radius t n = inr r
                                   /\ obj_of v
                                      = Sphere (mul r (of_Z 2)) 16 8 col
                                   /\ local_x v = x n /\ local_y v = y n
                                   /\ local_z v = z n).
      { clear - F Hg. induction F as [| s g0 l gs P0 F IH].
        - contradiction.
        - destruct Hg as [-> | Hg].
          + exists s. split; [left; reflexivity | exact P0].
          + destruct (IH Hg) as (s' & I' & P'). exists s'.
            split; [right; exact I' | exact P']. }
      destruct X as (s & Is & Ps).
      destruct (Ps _ Hvg) as (s0 & n & r & col & -> & El & Er & Eo & Ex).
      exists s0, n, r, col. repeat split; try tauto.
      unfold resolve_soma_radius in Er. destruct (soma_radius t); auto.
      congruence.
    + clear. intros [s |] w vs w1 E v Hv.
      * apply soma2gfx_inr in E.
        destruct E as (n & r & col & El & Er & ->).
        destruct Hv as [<- | []].
        exists s, n, r, col. repeat split; auto.
      * unfold soma2gfx in E. inv_run E. contradiction.
Qed.

End Skeletons.

(** ** The viewer entry point *)

Section Viewer.

Context `{Navis}.

(** C2, amended: on a collection of neurons, [add_neurons] logs the
    duplicate-id warning exactly when the collection holds duplicate ids,
    whatever [random_ids] (and every other argument) is; it then hands the
    collection to the converter and puts the visuals into the scene. *)
Theorem duplicate_ids_warning l a random_ids w :
  add_neurons (InNeuronList l) (with_random_ids random_ids a) w
  = (vis <- neuron2gfx (InNeuronList l) (a_color a)
                       (add_neurons_kwargs (with_random_ids random_ids a)) ;;
     update_scene a vis)
      (if is_degenerated (InNeuronList l)
       then record_event (Warned NeuronListContainsDuplicateIDs) w
       else w).
Proof.
  unfold add_neurons, check_input. simpl is_neuron. simpl is_neuronlist.
  cbv iota. destruct (is_degenerated (InNeuronList l)); reflexivity.
Qed.

End Viewer.

(** ** The converters on concrete neurons *)

Import Model.

(** The stand-in for navis returns one colour entry per neuron. *)
Lemma navis_model_contract : resolver_contract.
Proof.
  split.
  - intros args xs. simpl. unfold model_prepare_colormap.
    rewrite length_map, length_combine, length_seq. lia.
  - intros xs args cm E. simpl in E. unfold model_vertex_colors in E.
    inversion E. apply length_map.
Qed.

(** C6: the two segments [[0,0,0],[1,0,0]] and [[2,0,0],[3,0,0]] flatten to
    six rows, the points in order with a row of NaN after each segment (at
    indices 2 and 5), and these six rows are the coordinates of the line the
    skeleton converter builds for a skeleton with these two segments; four
    per-point colours in two blocks flatten to six rows as well, with rows
    of NaN at the same indices. *)
Theorem flatten_two_segments :
  let p0 := pt 0 0 0 in
  let p1 := pt 1 0 0 in
  let p2 := pt 2 0 0 in
  let p3 := pt 3 0 0 in
  let rows := [xyz_map to_f32 p0; xyz_map to_f32 p1; nan_row;
               xyz_map to_f32 p2; xyz_map to_f32 p3; nan_row] in
  flatten_coords [[p0; p1]; [p2; p3]] = inr rows
  /\ List.length rows = 6
  /\ map is_break rows = [false; false; true; false; false; true]
  /\ segments_to_coords skeleton_two_segments = [[p0; p1]; [p2; p3]]
  /\ (exists line w1,
         skeleton2gfx skeleton_two_segments grey 9%N no_kwargs
                      w0
         = (inr [line], w1)
         /\ exists lw col, obj_of line = Line (Some rows) lw col)
  /\ forall c0 c1 c2 c3 : crow,
       let crows := [map to_f32 c0; map to_f32 c1;
                     repeat nan (List.length c0);
                     map to_f32 c2; map to_f32 c3;
                     repeat nan (List.length c2)] in
       flatten_colors [[c0; c1]; [c2; c3]] = inr crows
       /\ List.length crows = List.length rows
       /\ option_map is_cbreak (nth_error crows 2) = Some true
       /\ option_map is_cbreak (nth_error crows 5) = Some true.
Proof.
  cbv zeta. split; [reflexivity |]. split; [reflexivity |].
  split; [reflexivity |]. split; [reflexivity |].
  split.
  { eexists. eexists. split; [vm_compute; reflexivity |].
    eexists. eexists. reflexivity. }
  intros c0 c1 c2 c3.
  split; [apply flatten_colors_cons |]. split; [reflexivity |].
  simpl. rewrite !is_cbreak_repeat. split; reflexivity.
Qed.

(** C1: a skeleton with one presynapse on node 2, default layout (display
    mode "lines"): the converter returns one line visual built without any
    coordinates, although the three rows for the connector (its position,
    the position of node 2, a row of NaN) were computed. *)
Theorem connector_lines_lack_coordinates :
  lay_display default_connector_colors = Some "lines"
  /\ (exists v w1,
         connectors2gfx (Tree skeleton3) grey 9%N no_kwargs w0 = (inr [v], w1)
         /\ obj_of v = Line None (of_Z 1) (CArr1 [one; zero; zero]))
  /\ connector_line_coords [xyz_map to_f32 (pt 5 5 5)] [pt 1 0 0]
     = [xyz_map to_f32 (pt 5 5 5); xyz_map to_f32 (pt 1 0 0); nan_row].
Proof.
  split; [reflexivity |]. split; [| reflexivity].
  eexists. eexists. split; [vm_compute; reflexivity | reflexivity].
Qed.

(** C2 as stated fails: two neurons with the same id added with
    [random_ids=True] still log the duplicate-id warning. *)
Lemma random_ids_does_not_silence_warning :
  is_degenerated (InNeuronList [Mesh mesh1; Mesh mesh1]) = true
  /\ a_random_ids args_random_ids = true
  /\ fst (add_neurons (InNeuronList [Mesh mesh1; Mesh mesh1])
                      args_random_ids w0) = inr tt
  /\ warnings (snd (add_neurons (InNeuronList [Mesh mesh1; Mesh mesh1])
                                args_random_ids w0))
     = [NeuronListContainsDuplicateIDs].
Proof. repeat split; vm_compute; reflexivity. Qed.

(** C3 as stated fails: a mesh neuron with a connector and the display mode
    "triangles" is converted to a point cloud, no error is raised. *)
Lemma triangles_on_mesh_neuron_give_points :
  has_connectors (Mesh mesh1) = true
  /\ connector_layout (kw_display "triangles")
     = inr (layout_update default_connector_colors
                          (display_layout "triangles"))
  /\ exists v w1,
       connectors2gfx (Mesh mesh1) grey 9%N (kw_display "triangles") w0
       = (inr [v], w1)
       /\ is_points v = true.
Proof.
  split; [reflexivity |]. split; [reflexivity |].
  eexists. eexists. split; [vm_compute; reflexivity | reflexivity].
Qed.

(** C4 as stated fails: a skeleton of twelve nodes, all reported as somas,
    converted with [soma=False] yields its neurite line and logs no
    warning; converted with [connectors_only=True] it yields nothing, not
    even the line. *)
Lemma many_somas_without_warning :
  10 <= List.length (make_iterable (soma skeleton12))
  /\ (exists line w1,
         skeleton2gfx skeleton12 grey 9%N kw_soma_off w0 = (inr [line], w1)
         /\ _neuron_part line = Some "neurites"
         /\ warnings w1 = [])
  /\ skeleton2gfx skeleton12 grey 9%N kw_only_connectors w0 = (inr [], w0).
Proof.
  split; [vm_compute; lia |]. split; [| reflexivity].
  eexists. eexists. split; [vm_compute; reflexivity |].
  split; reflexivity.
Qed.

(** ** The theorems at concrete inputs *)

(** The three-node skeleton with the display mode "triangles". *)
Lemma unknown_display_mode_raises_witness :
  is_MeshNeuron (Tree skeleton3) = false
  /\ lay_display (layout_update default_connector_colors
                                (display_layout "triangles"))
     = Some "triangles"
  /\ exists w1,
       connectors2gfx (Tree skeleton3) grey 9%N (kw_display "triangles") w0
       = (inl (ValueError ("Unknown connector display mode "
                             ++ quoted "triangles")%string), w1).
Proof.
  split; [reflexivity |]. split; [reflexivity |].
  apply (unknown_display_mode_raises (Tree skeleton3) grey 9%N
           (kw_display "triangles") w0
           (layout_update default_connector_colors
                          (display_layout "triangles"))
           "triangles" (mk_connector 5 5 5 0 2) []);
    try reflexivity; intros E; discriminate E.
Defined.

(** The skeleton of twelve somas, no keyword argument. *)
Lemma many_somas_are_skipped_witness :
  10 <= List.length (make_iterable (soma skeleton12))
  /\ 2 <= List.length (nodes skeleton12)
  /\ exists line w1,
       skeleton2gfx skeleton12 grey 9%N no_kwargs w0 = (inr [line], w1)
       /\ is_neurite_line skeleton12 line
       /\ warnings w1
          = warnings w0
              ++ [TooManySomas (id (t_base skeleton12))
                               (List.length (make_iterable (soma skeleton12)))].
Proof.
  assert (Hs : 10 <= List.length (make_iterable (soma skeleton12)))
    by (vm_compute; lia).
  assert (Hn : 2 <= List.length (nodes skeleton12)) by (vm_compute; lia).
  split; [exact Hs |]. split; [exact Hn |].
  apply (many_somas_are_skipped skeleton12 grey 9%N no_kwargs w0 Hs Hn).
  - split; [intros E; discriminate E | exact I].
  - reflexivity.
Defined.

(** [color_by] without a palette on the three-node skeleton. *)
Lemma color_by_requires_palette_witness :
  kw_color_by kw_color_by_only = Some "strahler_index"
  /\ palette_missing (kw_palette kw_color_by_only) = true
  /\ exists e,
       neuron2gfx (InNeuron (Tree skeleton3)) None kw_color_by_only w0
       = (inl e, w0)
       /\ (is_neuron (InNeuron (Tree skeleton3))
           || is_neuronlist (InNeuron (Tree skeleton3)) = true ->
           e = ValueError palette_message).
Proof.
  split; [reflexivity |]. split; [reflexivity |].
  apply (color_by_requires_palette (InNeuron (Tree skeleton3)) None
           kw_color_by_only w0 "strahler_index"); reflexivity.
Defined.

(** A skeleton and a mesh neuron, no colour argument. *)
Lemma colors_resolved_then_positional_witness :
  resolve_colormap two_neurons None no_kwargs w0
  = (inr two_colors, record_event (Called navis_prepare_colormap) w0)
  /\ List.length two_colors = List.length two_neurons
  /\ (exists evs,
         events (record_event (Called navis_prepare_colormap) w0)
         = events w0 ++ evs
         /\ forallb is_resolver_call evs = true)
  /\ uuid_drawn (record_event (Called navis_prepare_colormap) w0)
     = uuid_drawn w0
  /\ neuron2gfx (InNeuronList two_neurons) None no_kwargs w0
     = for_each (combine two_neurons two_colors) (convert_pair no_kwargs)
                (record_event (Called navis_prepare_colormap) w0).
Proof.
  assert (E : resolve_colormap two_neurons None no_kwargs w0
              = (inr two_colors,
                 record_event (Called navis_prepare_colormap) w0))
    by reflexivity.
  split; [exact E |].
  exact (colors_resolved_then_positional two_neurons None no_kwargs w0
           two_colors (record_event (Called navis_prepare_colormap) w0)
           navis_model_contract E).
Defined.

(** A skeleton and a mesh neuron with their connectors as circles. *)
Lemma object_id_invariant_witness :
  neuron2gfx (InNeuronList two_neurons) None (kw_display "circles") w0
  = (inr two_neurons_visuals, two_neurons_world)
  /\ Forall (fun v => _object_id v <> None) two_neurons_visuals
  /\ exists groups,
       two_neurons_visuals = List.concat groups
       /\ List.length groups = List.length two_neurons
       /\ forall i g,
            nth_error groups i = Some g ->
            converted_at (kw_display "circles") two_neurons w0 i g
            /\ tagged (uuid_source w0 (uuid_drawn w0 + i)) g.
Proof.
  assert (E : neuron2gfx (InNeuronList two_neurons) None
                         (kw_display "circles") w0
              = (inr two_neurons_visuals, two_neurons_world))
    by (vm_compute; reflexivity).
  split; [exact E |].
  exact (object_id_invariant (InNeuronList two_neurons) None
           (kw_display "circles") w0 two_neurons_visuals
           two_neurons_world E).
Defined.

(** The mesh neuron with the display mode "triangles". *)
Lemma mesh_connectors_are_points_witness :
  connector_layout (kw_display "triangles")
  = inr (layout_update default_connector_colors (display_layout "triangles"))
  /\ connectors (m_base mesh1) = Some [mk_connector 1 1 1 0 0]
  /\ exists vs w1,
       connectors2gfx (Mesh mesh1) grey 9%N (kw_display "triangles") w0
       = (inr vs, w1)
       /\ List.length vs
          = List.length (unique (map cn_type [mk_connector 1 1 1 0 0]))
       /\ forallb is_points vs = true
       /\ ([mk_connector 1 1 1 0 0] <> [] -> vs <> []).
Proof.
  split; [reflexivity |]. split; [reflexivity |].
  apply (mesh_connectors_are_points mesh1 grey 9%N
           (kw_display "triangles") w0
           (layout_update default_connector_colors
                          (display_layout "triangles"))
           "triangles" [mk_connector 1 1 1 0 0]); reflexivity.
Defined.

(** The soma of the three-node skeleton. *)
Lemma soma_sphere_geometry_witness :
  skeleton2gfx skeleton3 grey 9%N no_kwargs w0
  = (inr skeleton3_visuals, skeleton3_world)
  /\ In skeleton3_soma skeleton3_visuals
  /\ _neuron_part skeleton3_soma = Some "soma"
  /\ exists s n r col,
       In (Some s) (make_iterable (soma skeleton3))
       /\ loc (nodes skeleton3) s = inr n
       /\ resolve_soma_radius skeleton3 n = inr r
       /\ match soma_radius skeleton3 with
          | RadiusColumn column => getattr_node n column = inr r
          | RadiusScalar r0 => r = r0
          end
       /\ obj_of skeleton3_soma = Sphere (mul r (of_Z 2)) 16 8 col
       /\ local_x skeleton3_soma = x n
       /\ local_y skeleton3_soma = y n
       /\ local_z skeleton3_soma = z n.
Proof.
  assert (E : skeleton2gfx skeleton3 grey 9%N no_kwargs w0
              = (inr skeleton3_visuals, skeleton3_world))
    by (vm_compute; reflexivity).
  assert (Hv : In skeleton3_soma skeleton3_visuals)
    by (right; left; reflexivity).
  assert (Hp : _neuron_part skeleton3_soma = Some "soma") by reflexivity.
  split; [exact E |]. split; [exact Hv |]. split; [exact Hp |].
  exact (soma_sphere_geometry skeleton3 grey 9%N no_kwargs w0
           skeleton3_visuals skeleton3_world skeleton3_soma E Hv Hp).
Defined.

(** * Further properties *)

(** ** Calls that leave the scene alone *)

Lemma keeps_scene_ret {A} (a : A) : keeps_scene (ret a).
Proof. intros w. reflexivity. Qed.

Lemma keeps_scene_raise {A} e : keeps_scene (@raise A e).
Proof. intros w. reflexivity. Qed.

Lemma keeps_scene_emit e : keeps_scene (emit e).
Proof. intros w. reflexivity. Qed.

Lemma keeps_scene_uuid4 : keeps_scene uuid4.
Proof. intros w. reflexivity. Qed.

Lemma keeps_scene_bind {A B} (m : M A) (k : A -> M B) :
  keeps_scene m -> (forall a, keeps_scene (k a)) -> keeps_scene (bind m k).
Proof.
  intros Hm Hk w. unfold bind. specialize (Hm w).
  destruct (m w) as [[e | a] w1]; simpl in *; [exact Hm |].
  rewrite (Hk a w1). exact Hm.
Qed.

Lemma keeps_scene_lift {A} (r : exn + A) : keeps_scene (lift r).
Proof. destruct r; [apply keeps_scene_raise | apply keeps_scene_ret]. Qed.

Lemma keeps_scene_ext {A} c (r : A) : keeps_scene (ext c r).
Proof.
  apply keeps_scene_bind; [apply keeps_scene_emit |].
  intros; apply keeps_scene_ret.
Qed.

Lemma keeps_scene_ext_try {A} c (r : exn + A) : keeps_scene (ext_try c r).
Proof.
  apply keeps_scene_bind; [apply keeps_scene_emit |].
  intros _. destruct r; [apply keeps_scene_raise | apply keeps_scene_ret].
Qed.

Lemma keeps_scene_for_each {A B} (l : list A) (body : A -> M (list B)) :
  (forall a, keeps_scene (body a)) -> keeps_scene (for_each l body).
Proof.
  intros Hb. induction l as [| a l IH]; simpl.
  - apply keeps_scene_ret.
  - apply keeps_scene_bind; [apply Hb |]. intros vs.
    apply keeps_scene_bind; [apply IH |]. intros rest.
    apply keeps_scene_ret.
Qed.

Create HintDb scene.
#[export] Hint Resolve keeps_scene_ret keeps_scene_raise keeps_scene_emit
  keeps_scene_lift keeps_scene_ext keeps_scene_ext_try keeps_scene_uuid4
  : scene.

(** [keeps_scene] by the structure of the computation. *)
Ltac scene_tac :=
  repeat first
    [ progress auto with scene
    | apply keeps_scene_for_each; intros
    | apply keeps_scene_bind; [| intros]
    | match goal with
      | |- keeps_scene (if ?b then _ else _) => destruct b
      | |- keeps_scene (match ?x with _ => _ end) => destruct x
      | |- keeps_scene (warn _) => apply keeps_scene_emit
      end ].

Lemma keeps_scene_run {A} (m : M A) w r w1 :
  keeps_scene m -> m w = (r, w1) -> scene w1 = scene w.
Proof. intros F E. specialize (F w). rewrite E in F. exact F. Qed.

Section Scenes.

Context `{Navis}.

Lemma keeps_scene_connectors2gfx n c oid kw :
  keeps_scene (connectors2gfx n c oid kw).
Proof. unfold connectors2gfx, connectors2gfx_type. scene_tac. Qed.

Lemma keeps_scene_soma2gfx t c oid s : keeps_scene (soma2gfx t c oid s).
Proof. unfold soma2gfx. scene_tac. Qed.

Lemma keeps_scene_skeleton2gfx t c oid kw :
  keeps_scene (skeleton2gfx t c oid kw).
Proof.
  unfold skeleton2gfx.
  destruct (nodes t) as [| n0 [| n1 tbl]]; scene_tac;
    apply keeps_scene_soma2gfx.
Qed.

Lemma keeps_scene_convert kw n c oid : keeps_scene (convert kw n c oid).
Proof.
  unfold convert, mesh2gfx, voxel2gfx, dotprop2gfx. scene_tac;
    auto using keeps_scene_skeleton2gfx, keeps_scene_connectors2gfx.
Qed.

Lemma keeps_scene_neuron2gfx x color kw : keeps_scene (neuron2gfx x color kw).
Proof.
  unfold neuron2gfx. apply keeps_scene_bind.
  { unfold as_neuronlist. scene_tac. }
  intros xs. apply keeps_scene_bind.
  { unfold resolve_colormap. scene_tac. }
  intros cm. generalize 0 as i. induction xs as [| n xs IH]; intros i; simpl.
  - apply keeps_scene_ret.
  - apply keeps_scene_bind.
    + unfold neuron2gfx_body.
      apply keeps_scene_bind; [auto with scene |]. intros oid.
      apply keeps_scene_bind; [unfold with_radius; scene_tac |]. intros n'.
      apply keeps_scene_bind; [auto with scene |]. intros c.
      apply keeps_scene_convert.
    + intros vs. apply keeps_scene_bind; [apply IH |].
      intros rest. apply keeps_scene_ret.
Qed.

End Scenes.

(** ** Parts, kinds and attributes *)

Lemma custom_attributes v part n oid :
  custom part n oid (add_custom_attributes v part n oid).
Proof. repeat split. Qed.

Lemma Forall_concat_groups {A B} (P : B -> Prop) (Q : A -> list B -> Prop)
    (l : list A) groups :
  (forall a g, Q a g -> Forall P g) ->
  Forall2 Q l groups -> Forall P (List.concat groups).
Proof.
  intros HQ F. induction F; simpl; [constructor |].
  apply Forall_app. split; eauto.
Qed.

Section Parts.

Context `{Navis}.

Lemma connectors2gfx_made n c oid kw w vs w1 :
  connectors2gfx n c oid kw w = (inr vs, w1) ->
  Forall (fun v => custom "connectors" n oid v
                   /\ (kind_of v = KPoints \/ kind_of v = KLine)
                   /\ (is_MeshNeuron n = true -> kind_of v = KPoints)) vs.
Proof.
  unfold connectors2gfx. intros E. inv_run E.
  apply for_each_inr
    with (P := fun _ g =>
                 Forall (fun v => custom "connectors" n oid v
                                  /\ (kind_of v = KPoints \/ kind_of v = KLine)
                                  /\ (is_MeshNeuron n = true ->
                                      kind_of v = KPoints)) g)
    in E.
  - destruct E as (groups & -> & F).
    eapply Forall_concat_groups; [| exact F]. auto.
  - clear. intros j w vs w1 E. unfold connectors2gfx_type in E.
    inv_run E.
    match goal with
    | Hc : (if ?b || is_MeshNeuron n then _ else _) _ = _ |- _ =>
        destruct (is_MeshNeuron n) eqn:Em;
        [rewrite orb_true_r in Hc | rewrite orb_false_r in Hc; destruct b;
                                    [| destruct (String.eqb _ "lines")]];
        inv_run Hc
    end;
      (constructor; [| constructor]);
      (split; [apply custom_attributes |]); split; auto; discriminate.
Qed.

Lemma soma2gfx_made t c oid s w vs w1 :
  soma2gfx t c oid s w = (inr vs, w1) ->
  Forall (fun v => custom "soma" (Tree t) oid v /\ kind_of v = KSphere) vs.
Proof.
  unfold soma2gfx. destruct s; intros E; inv_run E; repeat constructor.
Qed.

Lemma skeleton2gfx_made t c oid kw w vs w1 :
  skeleton2gfx t c oid kw w = (inr vs, w1) ->
  Forall (fun v => get (kw_connectors_only kw) false = false
                   /\ ((custom "neurites" (Tree t) oid v
                        /\ kind_of v = KLine)
                       \/ (custom "soma" (Tree t) oid v
                           /\ kind_of v = KSphere
                           /\ get (kw_soma kw) true = true))) vs.
Proof.
  unfold skeleton2gfx. intros E.
  set (tb := nodes t) in E at 1. clearbody tb.
  destruct tb as [| n0 [| n1 tbl]]; [inv_run E; constructor .. |].
  destruct (get (kw_connectors_only kw) false) eqn:Eo;
    [inv_run E; constructor |].
  inv_run E. constructor.
  { split; [reflexivity |]. left. repeat split. }
  match goal with
  | Hs : (if get (kw_soma kw) true then _ else _) _ = _ |- _ =>
      destruct (get (kw_soma kw) true) eqn:Es;
      [destruct (Nat.leb 10 _) |]; inv_run Hs; try constructor;
      apply for_each_inr
        with (P := fun _ g =>
                     Forall (fun v => custom "soma" (Tree t) oid v
                                      /\ kind_of v = KSphere) g) in Hs;
      [| intros; eapply soma2gfx_made; eauto]
  end.
  match goal with
  | Hs : exists groups, _ |- _ => destruct Hs as (groups & -> & F)
  end.
  eapply Forall_concat_groups; [| exact F].
  intros s0 g Hg. eapply Forall_impl; [| exact Hg].
  intros v [Hc Hk]. split; [reflexivity |]. right. auto.
Qed.

(** Every visual of one conversion carries the attributes of some part of
    some neuron, of a kind that part is drawn with, and only parts the
    keyword arguments ask for; a mesh neuron gives meshes and points. *)
Lemma convert_made kw n c oid w vs w1 :
  convert kw n c oid w = (inr vs, w1) ->
  Forall (fun v => made_with kw oid v
                   /\ (is_MeshNeuron n = true ->
                       kind_of v = KMesh \/ kind_of v = KPoints)) vs.
Proof.
  unfold convert. intros E. inv_run E. apply Forall_app. split.
  - match goal with
    | Hn : (if negb _ then _ else _) _ = _ |- _ =>
        destruct (get (kw_connectors_only kw) false) eqn:Eo;
        simpl in Hn; [inv_run Hn; constructor |]; destruct n
    end.
    + match goal with
      | Hn : skeleton2gfx _ _ _ _ _ = _ |- _ =>
          apply skeleton2gfx_made in Hn;
          eapply Forall_impl; [| exact Hn]
      end.
      intros v [_ [[Hc Hk] | [Hc [Hk Hs]]]]; (split; [| discriminate]).
      * exists "neurites", (Tree t). split; [exact Hc |]. left. auto.
      * exists "soma", (Tree t). split; [exact Hc |]. right. left. auto.
    + unfold mesh2gfx in *.
      match goal with
      | Hn : match faces m with _ => _ end _ = _ |- _ =>
          destruct (faces m); inv_run Hn; [constructor |]
      end.
      constructor; [| constructor]. split; [| intros _; left; reflexivity].
      exists "neurites", (Mesh m). split; [apply custom_attributes |].
      left. auto.
    + unfold dotprop2gfx in *.
      match goal with
      | Hn : match points d with _ => _ end _ = _ |- _ =>
          destruct (points d); inv_run Hn; [constructor |]
      end.
      match goal with
      | Hn : skeleton2gfx ?tn _ _ _ _ = _ |- _ =>
          apply skeleton2gfx_made in Hn;
          eapply Forall_impl; [| exact Hn];
          intros v [_ [[Hc Hk] | [Hc [Hk Hs]]]]; (split; [| discriminate]);
          [exists "neurites", (Tree tn) | exists "soma", (Tree tn)]
      end.
      * split; [exact Hc |]. left. auto.
      * split; [exact Hc |]. right. left. auto.
    + unfold voxel2gfx in *.
      match goal with
      | Hn : bind _ _ _ = _ |- _ => inv_run Hn
      end.
      constructor; [| constructor]. split; [| discriminate].
      exists "neurites", (Voxel v). split; [apply custom_attributes |].
      left. auto.
    + match goal with
      | Hn : bind _ _ _ = _ |- _ => inv_run Hn
      end.
      constructor.
  - match goal with
    | Hc : (if ?b && _ then _ else _) _ = _ |- _ =>
        destruct b eqn:Eb; simpl in Hc;
        [destruct (has_connectors n) |]; inv_run Hc; try constructor
    end.
    match goal with
    | Hc : connectors2gfx _ _ _ _ _ = _ |- _ =>
        apply connectors2gfx_made in Hc;
        eapply Forall_impl; [| exact Hc]
    end.
    intros v (Hc & Hk & Hm). split; [| auto].
    exists "connectors", n. split; [exact Hc |]. right. right.
    split; [reflexivity |]. split; [| exact Hk].
    apply orb_true_iff in Eb. exact Eb.
Qed.

(** A successful conversion splits, in input order, into the outputs of
    [convert] for each neuron, and draws one UUID per neuron. *)
Lemma neuron2gfx_groups x color kw w vs w1 :
  neuron2gfx x color kw w = (inr vs, w1) ->
  uuid_source w1 = uuid_source w
  /\ uuid_drawn w1 = uuid_drawn w + List.length (input_neurons x)
  /\ exists groups,
       vs = List.concat groups
       /\ List.length groups = List.length (input_neurons x)
       /\ forall i g, nth_error groups i = Some g ->
                      converted_at kw (input_neurons x) w i g.
Proof.
  unfold neuron2gfx. intros E. inv_run E.
  match goal with
  | Ha : as_neuronlist _ _ = _, Hr : resolve_colormap _ _ _ _ = _ |- _ =>
      apply as_neuronlist_inr in Ha; destruct Ha as (-> & ->);
      pose proof (frame_run _ _ _ _ (frame_resolve_colormap _ _ _) Hr)
        as [Rs Rd]
  end.
  apply neuron2gfx_loop_groups in E.
  destruct E as (Ls & Ld & groups & -> & Lg & Lc).
  split; [congruence |]. split; [lia |].
  exists groups. split; [reflexivity |]. split; [exact Lg |].
  intros i g Ei. destruct (Lc _ _ Ei)
    as (n & n' & c & wa & wa' & wb & E1 & E2 & E3).
  rewrite Rs, Rd in E3. exists n, n', c, wa, wa', wb. auto.
Qed.

Lemma Forall_groups {P : visual -> Prop} (groups : list (list visual)) :
  (forall i g, nth_error groups i = Some g -> Forall P g) ->
  Forall P (List.concat groups).
Proof.
  intros Hg. apply Forall_concat. apply Forall_forall. intros g Ig.
  apply In_nth_error in Ig. destruct Ig as [i Ei]. eauto.
Qed.

End Parts.

Section PipelineFacts.

Context `{Navis}.


(** Every visual of the pipeline carries all six custom attributes, and
    they agree: the object type is "neuron", the neuron id and the name are
    those of the neuron stored in [_object], and the part matches the kind
    of pygfx object (neurites: line, mesh or volume; soma: sphere;
    connectors: points or line). *)
Theorem visuals_are_consistent x color kw w vs w1 :
  neuron2gfx x color kw w = (inr vs, w1) ->
  Forall (fun v =>
            exists part n oid,
              custom part n oid v
              /\ ((part = "neurites"
                   /\ (kind_of v = KLine \/ kind_of v = KMesh
                       \/ kind_of v = KVolume))
                  \/ (part = "soma" /\ kind_of v = KSphere)
                  \/ (part = "connectors"
                      /\ (kind_of v = KPoints \/ kind_of v = KLine)))) vs.
Proof.
  intros E. apply neuron2gfx_groups in E.
  destruct E as (_ & _ & groups & -> & _ & Lc).
  apply Forall_groups. intros i g Ei.
  destruct (Lc _ _ Ei) as (n & n' & c & wa & wa' & wb & _ & _ & E3).
  apply convert_made in E3. eapply Forall_impl; [| exact E3].
  intros v [(part & m & Hc & Hp) _]. exists part, m. eexists.
  split; [exact Hc |].
  destruct Hp as [(-> & _ & Hk) | [(-> & _ & _ & Hk) | (-> & _ & Hk)]];
    auto.
Qed.

Lemma with_radius_mesh kw n w n' w1 :
  get (kw_radius kw) false = true ->
  (forall d, n <> Dots d) -> (forall v, n <> Voxel v) ->
  (forall b, n <> OtherNeuron b) ->
  with_radius kw n w = (inr n', w1) -> is_MeshNeuron n' = true.
Proof.
  intros Er Hd Hv Hb. unfold with_radius. rewrite Er.
  destruct n; intros E; inv_run E; try reflexivity;
    [exfalso; eapply Hd | exfalso; eapply Hv | exfalso; eapply Hb];
    reflexivity.
Qed.

(** With [radius], skeletons are drawn as meshes: a list of skeletons and
    mesh neurons yields only meshes and point clouds, so no line, no soma
    sphere, and connectors as points whatever the display mode. *)
Theorem radius_draws_meshes xs color kw w vs w1 :
  get (kw_radius kw) false = true ->
  Forall (fun n => match n with Tree _ | Mesh _ => True | _ => False end) xs ->
  neuron2gfx (InNeuronList xs) color kw w = (inr vs, w1) ->
  Forall (fun v => kind_of v = KMesh \/ kind_of v = KPoints) vs.
Proof.
  intros Er Hx E. apply neuron2gfx_groups in E.
  destruct E as (_ & _ & groups & -> & _ & Lc).
  apply Forall_groups. intros i g Ei.
  destruct (Lc _ _ Ei) as (n & n' & c & wa & wa' & wb & E1 & E2 & E3).
  simpl in E1. apply nth_error_In in E1.
  rewrite Forall_forall in Hx. specialize (Hx _ E1).
  assert (Em : is_MeshNeuron n' = true).
  { eapply with_radius_mesh; [exact Er | | | | exact E2];
      intros ? ->; exact Hx. }
  apply convert_made in E3. eapply Forall_impl; [| exact E3].
  intros v [_ Hk]. auto.
Qed.

(** One UUID is drawn per neuron, and when the UUIDs drawn are pairwise
    distinct, visuals of neurons at different positions never share an
    object id, also when the neurons share their id. *)
Theorem positions_have_distinct_object_ids x color kw w vs w1 :
  (forall i j, i < j < List.length (input_neurons x) ->
               uuid_source w (uuid_drawn w + i)
               <> uuid_source w (uuid_drawn w + j)) ->
  neuron2gfx x color kw w = (inr vs, w1) ->
  uuid_drawn w1 = uuid_drawn w + List.length (input_neurons x)
  /\ exists groups,
       vs = List.concat groups
       /\ List.length groups = List.length (input_neurons x)
       /\ (forall i g, nth_error groups i = Some g ->
                       converted_at kw (input_neurons x) w i g)
       /\ forall i j g g' v v',
            i <> j ->
            nth_error groups i = Some g -> nth_error groups j = Some g' ->
            In v g -> In v' g' ->
            _object_id v <> _object_id v'.
Proof.
  intros Hu E. apply neuron2gfx_groups in E.
  destruct E as (_ & Ed & groups & -> & Lg & Lc).
  split; [exact Ed |]. exists groups. repeat split; auto.
  intros i j g g' v v' Hij Ei Ej Hv Hv'.
  assert (T : forall k gk vk, nth_error groups k = Some gk -> In vk gk ->
                _object_id vk = Some (uuid_source w (uuid_drawn w + k))
                /\ k < List.length (input_neurons x)).
  { intros k gk vk Ek Hk. split.
    - destruct (Lc _ _ Ek) as (n & n' & c & wa & wa' & wb & _ & _ & E3).
      apply convert_tagged in E3. unfold tagged in E3.
      rewrite Forall_forall in E3. auto.
    - rewrite <- Lg. apply nth_error_Some. congruence. }
  destruct (T _ _ _ Ei Hv) as [Oi Li].
  destruct (T _ _ _ Ej Hv') as [Oj Lj].
  rewrite Oi, Oj. intros Eq. injection Eq as Eq.
  destruct (Nat.lt_total i j) as [Lt | [Eqij | Gt]]; [| congruence |].
  - apply (Hu i j); [lia | exact Eq].
  - apply (Hu j i); [lia | symmetry; exact Eq].
Qed.

End PipelineFacts.

(** ** The colour map and the collection *)

Section ColormapBounds.

Context `{Navis}.

Lemma neuron2gfx_unfold xs color kw w cm wr :
  resolve_colormap xs color kw w = (inr cm, wr) ->
  neuron2gfx (InNeuronList xs) color kw w = neuron2gfx_loop kw cm 0 xs wr.
Proof.
  intros E. unfold neuron2gfx. simpl as_neuronlist.
  unfold bind at 1. simpl. unfold bind at 1. rewrite E. reflexivity.
Qed.

End ColormapBounds.

(** ** The viewer *)

Lemma add_all_to_scene_run vis : forall w,
  add_all_to_scene vis w
  = (inr tt,
     {| events := events w
                    ++ repeat (Called viewer_add_to_scene) (List.length vis);
        uuid_source := uuid_source w;
        uuid_drawn := uuid_drawn w;
        scene := scene w ++ vis |}).
Proof.
  induction vis as [| v vis IH]; intros w; simpl.
  - unfold ret. rewrite !app_nil_r. destruct w; reflexivity.
  - unfold bind, _add_to_scene. rewrite IH. simpl.
    rewrite <- !app_assoc. reflexivity.
Qed.

Lemma update_scene_run a vis w :
  exists w1,
    update_scene a vis w = (inr tt, w1)
    /\ scene w1 = (if a_clear a then [] else scene w) ++ vis
    /\ events w1
       = events w
           ++ (if a_clear a then [Called viewer_clear] else [])
           ++ repeat (Called viewer_add_to_scene) (List.length vis)
           ++ (if a_center a then [Called viewer_center_camera] else []).
Proof.
  unfold update_scene, bind.
  destruct (a_clear a); simpl; rewrite add_all_to_scene_run;
    destruct (a_center a); simpl; eexists; (split; [reflexivity |]);
    simpl; rewrite ?app_nil_r, <- ?app_assoc; split; reflexivity.
Qed.

Lemma keeps_scene_check_input x : keeps_scene (check_input x).
Proof. unfold check_input. scene_tac. Qed.

Section ViewerFacts.

Context `{Navis}.

Lemma add_neurons_inl x a w e w1 :
  add_neurons x a w = (inl e, w1) -> scene w1 = scene w.
Proof.
  unfold add_neurons. fold (accepted_input x). unfold bind.
  destruct (check_input (accepted_input x) w) as [[e0 | []] wc] eqn:Ec.
  - intros E. inversion E; subst.
    eapply keeps_scene_run; [apply keeps_scene_check_input | exact Ec].
  - destruct (neuron2gfx (accepted_input x) (a_color a)
                (add_neurons_kwargs a) wc) as [[e1 | vis] wv] eqn:En.
    + intros E. inversion E; subst.
      rewrite (keeps_scene_run _ _ _ _ (keeps_scene_neuron2gfx _ _ _) En).
      eapply keeps_scene_run; [apply keeps_scene_check_input | exact Ec].
    + destruct (update_scene_run a vis wv) as (w2 & Eu & _).
      rewrite Eu. discriminate.
Qed.

(** [add_neurons] is all or nothing: when it raises, the scene is as it
    was, also under [clear=True]; when it returns, the scene is the old
    scene (emptied first under [clear]) followed by the converted visuals in
    order, each added with one call, and the camera is centred once, at the
    end, exactly when [center] is set. *)
Theorem add_neurons_all_or_nothing x a w r w1 :
  add_neurons x a w = (r, w1) ->
  match r with
  | inl _ => scene w1 = scene w
  | inr _ =>
      exists vis wc wv,
        check_input (accepted_input x) w = (inr tt, wc)
        /\ neuron2gfx (accepted_input x) (a_color a) (add_neurons_kwargs a) wc
           = (inr vis, wv)
        /\ scene w1 = (if a_clear a then [] else scene w) ++ vis
        /\ events w1
           = events wv
               ++ (if a_clear a then [Called viewer_clear] else [])
               ++ repeat (Called viewer_add_to_scene) (List.length vis)
               ++ (if a_center a then [Called viewer_center_camera] else [])
  end.
Proof.
  destruct r as [e | u]; intros E.
  - eapply add_neurons_inl; eauto.
  - unfold add_neurons in E. fold (accepted_input x) in E. inv_run E.
    match goal with
    | Hc : check_input _ _ = (inr ?u0, ?wc),
      Hn : neuron2gfx _ _ _ _ = (inr ?vis, ?wv) |- _ =>
        destruct u0; exists vis, wc, wv;
        split; [exact Hc |]; split; [exact Hn |];
        pose proof (keeps_scene_run _ _ _ _ (keeps_scene_neuron2gfx _ _ _) Hn)
          as S1;
        pose proof (keeps_scene_run _ _ _ _ (keeps_scene_check_input _) Hc)
          as S2;
        destruct (update_scene_run a vis wv) as (wu & Eu & Es & Ev)
    end.
    rewrite Eu in E. injection E as _ <-.
    split; [rewrite Es, S1, S2; reflexivity | exact Ev].
Qed.

Lemma with_radius_has_connectors kw n w n' w1 :
  with_radius kw n w = (inr n', w1) ->
  has_connectors n' = has_connectors n.
Proof.
  unfold with_radius. destruct (get (kw_radius kw) false);
    [destruct n |]; intros E; inv_run E; reflexivity.
Qed.

(** With [connectors=True] and no [synapse_layout], [add_neurons] passes
    [synapse_layout=None] on, the connector converter cannot update the
    default layout with it, and the call raises for every input that holds
    a neuron with connectors; nothing is added to the scene. *)
Theorem connectors_without_layout_fail x a w n :
  In n (input_neurons x) ->
  has_connectors n = true ->
  a_connectors a = true ->
  a_synapse_layout a = None ->
  exists e w1, add_neurons x a w = (inl e, w1) /\ scene w1 = scene w.
Proof.
  intros Hin Hc Ha Hl.
  destruct (add_neurons x a w) as [[e | u] w1] eqn:E.
  - exists e, w1. split; [reflexivity |]. eapply add_neurons_inl; eauto.
  - exfalso. unfold add_neurons in E. fold (accepted_input x) in E.
    assert (Ex : accepted_input x = x)
      by (destruct x; try reflexivity; contradiction).
    rewrite Ex in E. inv_run E.
    match goal with
    | Hn : neuron2gfx _ _ _ _ = (inr _, _) |- _ =>
        apply neuron2gfx_groups in Hn;
        destruct Hn as (_ & _ & groups & _ & Lg & Lc)
    end.
    apply In_nth_error in Hin. destruct Hin as [i Ei].
    assert (Li : i < List.length groups).
    { rewrite Lg. apply nth_error_Some. congruence. }
    apply nth_error_Some in Li.
    destruct (nth_error groups i) as [g |] eqn:Eg; [| congruence].
    destruct (Lc _ _ Eg) as (m & m' & c & wa & wa' & wb & E1 & E2 & E3).
    assert (m = n) by congruence. subst m.
    apply with_radius_has_connectors in E2.
    unfold convert in E3. inv_run E3.
    match goal with
    | Hk : (if _ && has_connectors m' then _ else _) _ = _ |- _ =>
        rewrite E2, Hc in Hk; simpl in Hk; rewrite Ha in Hk; simpl in Hk;
        unfold connectors2gfx, connector_layout in Hk; simpl in Hk;
        rewrite Hl in Hk; discriminate Hk
    end.
Qed.

End ViewerFacts.

(** ** Skipped neurons and somas *)

Section Skips.

Context `{Navis}.

Lemma convert_skipped kw n c oid w :
  skipped n = true ->
  get (kw_connectors kw) false = false ->
  get (kw_connectors_only kw) false = false ->
  exists w1,
    convert kw n c oid w = (inr [], w1)
    /\ warnings w1 = warnings w ++ skip_warning n.
Proof.
  intros Hs Hc Ho. unfold convert. rewrite Hc, Ho. simpl.
  destruct n as [t | m | d | v | b]; simpl in Hs.
  - unfold skeleton2gfx.
    destruct (nodes t) as [| n0 [| n1 tbl]] eqn:En; simpl in Hs;
      [| | discriminate]; run_bind; eexists;
      (split; [reflexivity |]); simpl; rewrite En;
      apply warnings_warned.
  - unfold mesh2gfx. destruct (faces m); [| discriminate].
    run_bind. eexists. split; [reflexivity |]. simpl.
    symmetry. apply app_nil_r.
  - unfold dotprop2gfx. destruct (points d); [| discriminate].
    run_bind. eexists. split; [reflexivity |]. simpl.
    symmetry. apply app_nil_r.
  - discriminate.
  - run_bind. eexists. split; [reflexivity |]. apply warnings_warned.
Qed.

Lemma neuron2gfx_body_skipped kw cm i n w :
  get (kw_radius kw) false = false ->
  get (kw_connectors kw) false = false ->
  get (kw_connectors_only kw) false = false ->
  skipped n = true ->
  i < List.length cm ->
  exists w1,
    neuron2gfx_body kw cm i n w = (inr [], w1)
    /\ warnings w1 = warnings w ++ skip_warning n.
Proof.
  intros Hr Hc Ho Hn L. unfold neuron2gfx_body, with_radius, getitem.
  rewrite Hr.
  destruct (nth_error cm i) as [c |] eqn:Ec;
    [| apply nth_error_None in Ec; lia].
  run_bind.
  match goal with
  | |- exists w1, convert kw n c ?oid ?wu = _ /\ _ =>
      destruct (convert_skipped kw n c oid wu Hn Hc Ho) as (wc & Econv & Wc)
  end.
  exists wc. split; [exact Econv |]. rewrite Wc. f_equal.
  unfold warnings. simpl. rewrite flat_map_app. simpl. apply app_nil_r.
Qed.

Lemma neuron2gfx_loop_skipped kw cm :
  get (kw_radius kw) false = false ->
  get (kw_connectors kw) false = false ->
  get (kw_connectors_only kw) false = false ->
  forall xs i w,
    forallb skipped xs = true ->
    i + List.length xs <= List.length cm ->
    exists w1,
      neuron2gfx_loop kw cm i xs w = (inr [], w1)
      /\ warnings w1 = warnings w ++ flat_map skip_warning xs.
Proof.
  intros Hr Hc Ho. induction xs as [| n xs IH]; intros i w Hs L.
  - exists w. split; [reflexivity |]. simpl. symmetry. apply app_nil_r.
  - simpl in Hs. apply andb_true_iff in Hs. destruct Hs as [Hn Hs].
    simpl in L. simpl neuron2gfx_loop.
    destruct (neuron2gfx_body_skipped kw cm i n w Hr Hc Ho Hn)
      as (wb & Eb & Wb); [lia |].
    destruct (IH (S i) wb Hs) as (w1 & El & W1); [lia |].
    rewrite (bind_run _ _ _ _ _ Eb). cbv beta.
    rewrite (bind_run _ _ _ _ _ El). cbv beta.
    exists w1. split; [reflexivity |].
    rewrite W1, Wb, <- app_assoc. reflexivity.
Qed.

(** Skipped items do not stop the batch: a collection in which every
    neuron is a skeleton of at most one node, a mesh neuron without faces,
    dotprops without points or a neuron of another kind converts, without
    [radius] and connectors and with a flat colour map from navis, to no
    visual, and logs one warning per degenerate skeleton and per neuron of
    another kind, in input order. *)
Theorem skipped_neurons_give_warnings_only xs color kw w :
  resolver_contract ->
  kw_color_by kw = None ->
  kw_shade_by kw = None ->
  get (kw_radius kw) false = false ->
  get (kw_connectors kw) false = false ->
  get (kw_connectors_only kw) false = false ->
  forallb skipped xs = true ->
  exists w1,
    neuron2gfx (InNeuronList xs) color kw w = (inr [], w1)
    /\ warnings w1 = warnings w ++ flat_map skip_warning xs.
Proof.
  intros [Cp _] Eb Es Hr Hc Ho Hs.
  destruct (resolve_colormap xs color kw w) as [[e | cm] wr] eqn:Er.
  { unfold resolve_colormap in Er. rewrite Eb, Es in Er. discriminate Er. }
  assert (Lw : List.length cm = List.length xs /\ warnings wr = warnings w).
  { unfold resolve_colormap in Er. rewrite Eb, Es in Er. inv_run Er.
    split; [apply Cp | apply warnings_called]. }
  destruct Lw as [L Ww].
  rewrite (neuron2gfx_unfold _ _ _ _ _ _ Er).
  destruct (neuron2gfx_loop_skipped kw cm Hr Hc Ho xs 0 wr Hs) as (w1 & E & W);
    [lia |].
  exists w1. split; [exact E |]. rewrite W, Ww. reflexivity.
Qed.

Lemma for_each_somas t c oid :
  forall l w vs w1,
    for_each l (soma2gfx t c oid) w = (inr vs, w1) ->
    Forall2 (fun s v => exists n r col,
                          loc (nodes t) s = inr n
                          /\ resolve_soma_radius t n = inr r
                          /\ v = soma_sphere t oid n r col)
            (valid_somas l) vs.
Proof.
  induction l as [| s l IH]; simpl; intros w vs w1 E.
  - inv_run E. constructor.
  - inv_run E.
    match goal with
    | Hs : soma2gfx _ _ _ _ _ = _, Hl : for_each _ _ _ = _ |- _ =>
        apply IH in Hl; destruct s as [s |];
        [apply soma2gfx_inr in Hs;
         destruct Hs as (n & r & col & El & Er & ->)
        | unfold soma2gfx in Hs; inv_run Hs]
    end.
    + simpl. constructor; [| assumption]. exists n, r, col. auto.
    + simpl. assumption.
Qed.

(** With fewer than ten reported somas and soma plotting on, a successful
    conversion of a skeleton returns the neurite line followed by exactly
    one sphere per reported soma that is not [None], in the order reported;
    each such soma is a node of the node table with a resolvable radius. *)
Theorem one_sphere_per_soma t c oid kw w vs w1 :
  2 <= List.length (nodes t) ->
  get (kw_connectors_only kw) false = false ->
  get (kw_soma kw) true = true ->
  List.length (make_iterable (soma t)) < 10 ->
  skeleton2gfx t c oid kw w = (inr vs, w1) ->
  exists line spheres,
    vs = line :: spheres
    /\ is_neurite_line t line
    /\ Forall2 (fun s v => exists n r col,
                             loc (nodes t) s = inr n
                             /\ resolve_soma_radius t n = inr r
                             /\ v = soma_sphere t oid n r col)
               (valid_somas (make_iterable (soma t))) spheres.
Proof.
  intros Hn Ho Hs Hl E.
  assert (El := E). unfold skeleton2gfx in E.
  set (tb := nodes t) in E at 1. assert (Etb : tb = nodes t) by reflexivity.
  clearbody tb.
  destruct tb as [| n0 [| n1 tbl]]; [rewrite <- Etb in Hn; simpl in Hn; lia ..
                                    |].
  rewrite Ho, Hs in E.
  assert (Hl' : Nat.leb 10 (List.length (make_iterable (soma t))) = false)
    by (apply Nat.leb_gt; exact Hl).
  rewrite Hl' in E. inv_run E.
  match goal with
  | Hf : for_each _ _ _ = (inr ?sp, _) |- _ =>
      apply for_each_somas in Hf;
      eexists; exists sp; split; [reflexivity |]; split; [| exact Hf]
  end.
  eapply skeleton2gfx_neurites. exact El.
Qed.

End Skips.

(** ** Connector types *)

Lemma pyid_eqb_eq a b : pyid_eqb a b = true <-> a = b.
Proof.
  destruct a as [x | x], b as [y | y]; simpl; split; intros E;
    try discriminate.
  - apply Z.eqb_eq in E. congruence.
  - injection E as ->. apply Z.eqb_refl.
  - apply String.eqb_eq in E. congruence.
  - injection E as ->. apply String.eqb_refl.
Qed.

Lemma pyid_eqb_refl a : pyid_eqb a a = true.
Proof. apply pyid_eqb_eq. reflexivity. Qed.

(** [unique] keeps exactly the values of the list, each once. *)
Lemma unique_In j : forall l, In j (unique l) <-> In j l.
Proof.
  induction l as [| a l IH]; simpl; [tauto |].
  rewrite filter_In, IH. split.
  - intros [-> | [Hl _]]; auto.
  - intros [-> | Hl]; [auto |].
    destruct (pyid_eqb a j) eqn:E.
    + apply pyid_eqb_eq in E. auto.
    + right. split; [exact Hl | reflexivity].
Qed.

Lemma unique_NoDup : forall l, NoDup (unique l).
Proof.
  induction l as [| a l IH]; simpl; constructor.
  - rewrite filter_In. intros [_ E]. rewrite pyid_eqb_refl in E.
    discriminate.
  - apply NoDup_filter. exact IH.
Qed.

Lemma count_type_cons a cns j :
  count_type j (a :: cns)
  = (if pyid_eqb (cn_type a) j then 1 else 0) + count_type j cns.
Proof.
  unfold count_type. simpl. destruct (pyid_eqb (cn_type a) j); reflexivity.
Qed.

Lemma count_type_absent j : forall cns,
  ~ In j (map cn_type cns) -> count_type j cns = 0.
Proof.
  induction cns as [| a cns IH]; intros Hn; [reflexivity |].
  rewrite count_type_cons, IH by (simpl in Hn; tauto).
  destruct (pyid_eqb (cn_type a) j) eqn:E; [| reflexivity].
  apply pyid_eqb_eq in E. simpl in Hn. tauto.
Qed.

Lemma sum_split (f : pyid -> nat) a : forall u,
  NoDup u ->
  (~ In a u -> f a = 0) ->
  list_sum (map f u)
  = f a + list_sum (map f (filter (fun b => negb (pyid_eqb a b)) u)).
Proof.
  induction u as [| b u IH]; intros Hd Ha; simpl.
  - rewrite Ha by tauto. reflexivity.
  - inversion Hd as [| b' u' Hb Hu]; subst.
    destruct (pyid_eqb a b) eqn:E; simpl.
    + apply pyid_eqb_eq in E. subst b.
      assert (F : filter (fun b => negb (pyid_eqb a b)) u = u).
      { apply forallb_filter_id. apply forallb_forall. intros x Hx.
        destruct (pyid_eqb a x) eqn:Ex; [| reflexivity].
        apply pyid_eqb_eq in Ex. subst x. contradiction. }
      rewrite F. reflexivity.
    + rewrite (IH Hu).
      * lia.
      * intros Hn. apply Ha. simpl. intros [-> | Hi]; [| tauto].
        rewrite pyid_eqb_refl in E. discriminate.
Qed.

(** Every connector has exactly one of the distinct types. *)
Lemma count_type_partition : forall cns,
  list_sum (map (fun j => count_type j cns) (unique (map cn_type cns)))
  = List.length cns.
Proof.
  induction cns as [| a cns IH]; [reflexivity |].
  cbn [map unique list_sum fold_right List.length].
  rewrite count_type_cons, pyid_eqb_refl.
  assert (E : map (fun j => count_type j (a :: cns))
                  (filter (fun b => negb (pyid_eqb (cn_type a) b))
                          (unique (map cn_type cns)))
              = map (fun j => count_type j cns)
                    (filter (fun b => negb (pyid_eqb (cn_type a) b))
                            (unique (map cn_type cns)))).
  { apply map_ext_in. intros j Hj. apply filter_In in Hj.
    destruct Hj as [_ Hj]. rewrite count_type_cons.
    destruct (pyid_eqb (cn_type a) j); [discriminate | reflexivity]. }
  rewrite E.
  rewrite <- IH.
  rewrite (sum_split (fun j => count_type j cns) (cn_type a)
             (unique (map cn_type cns)) (unique_NoDup _)).
  - unfold list_sum. lia.
  - intros Hn. apply count_type_absent. rewrite <- unique_In. exact Hn.
Qed.



Section ConnectorFacts.

Context `{Navis}.

Lemma for_each_circles n cns cn_lay c oid kw :
  lay_display cn_lay = Some "circles" ->
  forall js w,
    exists vs w1,
      for_each js (connectors2gfx_type n cns cn_lay c oid kw) w
      = (inr vs, w1)
      /\ map obj_of vs
         = map (fun j =>
                  Points (connector_positions j cns)
                         (eval_color
                            (connector_color (kw_cn_colors kw) cn_lay c j))
                         (get (lay_size cn_lay) (of_Z 100)))
               js
      /\ Forall (custom "connectors" n oid) vs.
Proof.
  intros Ed. induction js as [| j js IH]; intros w; simpl.
  - exists [], w. repeat split. constructor.
  - assert (Ej : exists wj,
               connectors2gfx_type n cns cn_lay c oid kw j w
               = (inr [add_custom_attributes
                         (new_visual
                            (Points (connector_positions j cns)
                               (eval_color
                                  (connector_color (kw_cn_colors kw)
                                                   cn_lay c j))
                               (get (lay_size cn_lay) (of_Z 100))))
                         "connectors" n oid], wj)).
    { unfold connectors2gfx_type. rewrite Ed.
      unfold bind, ext, emit, ret. simpl. eexists. reflexivity. }
    destruct Ej as (wj & Ej). destruct (IH wj) as (vs & w1 & Evs & Eo & Ec).
    eexists. exists w1. unfold bind. rewrite Ej, Evs. unfold ret.
    split; [reflexivity |]. split.
    + simpl. f_equal. exact Eo.
    + constructor; [apply custom_attributes | exact Ec].
Qed.

(** In "circles" mode the connector converter succeeds on every kind of
    neuron: it returns one point cloud per distinct connector type, in
    order of first appearance, holding the float32 positions of the
    connectors of that type in the colour resolved for the type; together
    the clouds hold every connector exactly once. *)
Theorem circles_draw_every_connector_once n c oid kw w cn_lay cns :
  connector_layout kw = inr cn_lay ->
  lay_display cn_lay = Some "circles" ->
  connectors (neuron_base n) = Some cns ->
  exists vs w1,
    connectors2gfx n c oid kw w = (inr vs, w1)
    /\ map obj_of vs
       = map (fun j =>
                Points (connector_positions j cns)
                       (eval_color
                          (connector_color (kw_cn_colors kw) cn_lay c j))
                       (get (lay_size cn_lay) (of_Z 100)))
             (unique (map cn_type cns))
    /\ NoDup (unique (map cn_type cns))
    /\ (forall j, In j (unique (map cn_type cns)) <-> In j (map cn_type cns))
    /\ list_sum (map n_points vs) = List.length cns.
Proof.
  intros El Ed Ec. unfold connectors2gfx. rewrite El, Ec.
  destruct (for_each_circles n cns cn_lay c oid kw Ed
              (unique (map cn_type cns)) w) as (vs & w1 & E & Eo & _).
  exists vs, w1. unfold bind, lift, ret. simpl. rewrite E.
  split; [reflexivity |]. split; [exact Eo |].
  split; [apply unique_NoDup |]. split; [intros j; apply unique_In |].
  rewrite <- (count_type_partition cns).
  assert (En : map n_points vs
               = map (fun g => match g with
                               | Points pos _ _ => List.length pos
                               | _ => 0
                               end) (map obj_of vs))
    by (rewrite map_map; reflexivity).
  rewrite En, Eo, map_map. f_equal. apply map_ext. intros j.
  unfold connector_positions, count_type. apply length_map.
Qed.



End ConnectorFacts.

(** ** Shading *)

Lemma column3_length : forall a alpha,
  column3 a = inr alpha -> List.length alpha = List.length a.
Proof.
  induction a as [| r a IH]; cbn [column3]; intros alpha.
  - intros E. inversion E. reflexivity.
  - destruct (nth_error r 3); [| discriminate].
    destruct (column3 a) as [e | rest]; cbn [bindE]; [discriminate |].
    intros E. inversion E. simpl. f_equal. apply IH. reflexivity.
Qed.

Lemma combine_repeat_map {A B C} (f : A * B -> C) (c : A) : forall l,
  map f (combine (repeat c (List.length l)) l) = map (fun b => f (c, b)) l.
Proof. induction l; simpl; congruence. Qed.

Lemma column3_rgb_alpha (rgb : crow) : forall alpha,
  List.length rgb = 3 ->
  column3 (map (fun al => rgb ++ [al]) alpha) = inr alpha.
Proof.
  intros alpha L. induction alpha as [| al alpha IH]; [reflexivity |].
  cbn [map column3]. rewrite nth_error_app2 by lia. rewrite L.
  cbn [Nat.sub nth_error]. rewrite IH. reflexivity.
Qed.

(** A flat colour of three or four channels merged with a shading array is
    broadcast to one row per row of the shading array, each row keeping the
    colour's RGB and taking its alpha from the shading row; reading the
    alpha column back gives the shading alphas. *)
Theorem flat_color_takes_shading_alpha c a alpha :
  List.length c = 3 \/ List.length c = 4 ->
  a <> [] ->
  column3 a = inr alpha ->
  exists rows,
    merge_alpha (CArr1 c) a = inr (CArr2 rows)
    /\ rows = map (fun al => firstn 3 c ++ [al]) alpha
    /\ List.length rows = List.length a
    /\ column3 rows = inr alpha.
Proof.
  intros Lc Ha Ea. pose proof (column3_length _ _ Ea) as La.
  assert (Lf : List.length (firstn 3 c) = 3)
    by (rewrite length_firstn; lia).
  exists (map (fun al => firstn 3 c ++ [al]) alpha).
  split; [| split; [reflexivity | split]].
  - unfold merge_alpha, bindE. rewrite Ea. cbv beta iota.
    unfold broadcast. rewrite repeat_length, La, Nat.eqb_refl.
    cbv beta iota.
    assert (Es : shape1 (@repeat crow c (List.length a)) = List.length c).
    { destruct a; [congruence | reflexivity]. }
    rewrite Es. rewrite <- La.
    destruct Lc as [L3 | L4].
    + rewrite L3. change (Nat.eqb 3 4) with false.
      change (Nat.ltb 3 3) with false. cbv iota.
      rewrite combine_repeat_map. do 2 f_equal. apply map_ext. intros al.
      simpl fst. simpl snd. rewrite skipn_all2 by lia. reflexivity.
    + rewrite L4. change (Nat.eqb 4 4) with true. cbv iota.
      rewrite combine_repeat_map. do 2 f_equal. apply map_ext. intros al.
      simpl fst. simpl snd. rewrite skipn_all2 by lia. reflexivity.
  - rewrite length_map. exact La.
  - apply column3_rgb_alpha. exact Lf.
Qed.

(** ** Breaks *)

Lemma breaks_in_blocks {A B} (f : A -> B) (brk : list A -> B) :
  forall (blocks : list (list A)) (pre : list B) i,
    In i (break_indices (List.length pre) (map (@List.length A) blocks)) ->
    exists t,
      In t blocks
      /\ nth_error
           (pre ++ List.concat (map (fun t => map f t ++ [brk t]) blocks)) i
         = Some (brk t).
Proof.
  induction blocks as [| b blocks IH]; simpl; intros pre i Hi;
    [contradiction |].
  destruct Hi as [<- | Hi].
  - exists b. split; [auto |].
    rewrite nth_error_app2 by lia.
    replace (List.length pre + List.length b - List.length pre)
      with (List.length (map f b)) by (rewrite length_map; lia).
    rewrite <- app_assoc. rewrite nth_error_app2 by lia.
    rewrite Nat.sub_diag. reflexivity.
  - specialize (IH (pre ++ map f b ++ [brk b]) i).
    rewrite !length_app, length_map in IH. simpl in IH.
    replace (List.length pre + (List.length b + 1))
      with (List.length pre + List.length b + 1) in IH by lia.
    destruct (IH Hi) as (t & Ht & Et). exists t. split; [auto |].
    rewrite <- Et. f_equal. rewrite <- !app_assoc. reflexivity.
Qed.

Lemma sum_S_lengths {A B} (l : list (list A)) : forall l' : list (list B),
  map (@List.length A) l = map (@List.length B) l' ->
  list_sum (map (fun t => S (List.length t)) l)
  = list_sum (map (fun t => S (List.length t)) l').
Proof.
  induction l as [| t l IH]; intros [| t' l'] E; simpl in *;
    try discriminate; [reflexivity |].
  injection E as E1 E2. rewrite E1, (IH _ E2). reflexivity.
Qed.

(** Flattening blocks of coordinates and blocks of colours of the same
    sizes gives two sequences of the same length, one row per point plus
    one per block, with a row of NaN at the same indices, right after each
    block; without any block both raise [ValueError]. *)
Theorem flattened_sequences_align coords colors :
  map (@List.length xyz) coords = map (@List.length crow) colors ->
  match coords with
  | [] =>
      (exists msg, flatten_coords coords = inl (ValueError msg))
      /\ (exists msg, flatten_colors colors = inl (ValueError msg))
  | _ =>
      exists rows crows,
        flatten_coords coords = inr rows
        /\ flatten_colors colors = inr crows
        /\ List.length rows
           = list_sum (map (@List.length xyz) coords) + List.length coords
        /\ List.length crows = List.length rows
        /\ forall i,
             In i (break_indices 0 (map (@List.length xyz) coords)) ->
             nth_error rows i = Some nan_row
             /\ exists r, nth_error crows i = Some r /\ is_cbreak r = true
  end.
Proof.
  intros Es. destruct coords as [| b bs].
  - destruct colors; [| discriminate]. split; eexists; reflexivity.
  - destruct colors as [| cb cbs]; [discriminate |].
    assert (L : forall (A : Type) (l : list (list A)),
               list_sum (map (fun t => S (List.length t)) l)
               = list_sum (map (@List.length A) l) + List.length l).
    { intros A l. induction l as [| t l IH]; simpl; [reflexivity |].
      rewrite IH. lia. }
    eexists. eexists.
    split; [apply flatten_coords_cons |].
    split; [apply flatten_colors_cons |].
    split; [rewrite length_concat_blocks; apply L |].
    split.
    { rewrite !length_concat_blocks. symmetry.
      apply sum_S_lengths. exact Es. }
    intros i Hi. split.
    + destruct (breaks_in_blocks (xyz_map to_f32) (fun _ => nan_row)
                  (b :: bs) [] i Hi) as (t & _ & Et).
      exact Et.
    + rewrite Es in Hi.
      destruct (breaks_in_blocks (map to_f32)
                  (fun t => repeat nan (shape1 t)) (cb :: cbs) [] i Hi)
        as (t & _ & Et).
      exists (repeat nan (shape1 t)). split; [exact Et |].
      apply is_cbreak_repeat.
Qed.

(** ** Volumes *)

(** [volume2gfx] always hands a colour to octarine, chosen in this order:
    the keyword [color] (then [c] is forwarded as well), the keyword [c]
    (moved to [color]), the volume's own colour unless [None], the default
    colour.  It draws one UUID on every call, but the object id is that
    UUID only for an object without [name] attribute: otherwise it is the
    name, and [None] for a volume whose name is [None]. *)
Theorem volume2gfx_color_and_object_id x kw w :
  exists vis w1,
    volume2gfx x kw w = (inr vis, w1)
    /\ uuid_drawn w1 = S (uuid_drawn w)
    /\ vv_source vis = x
    /\ vk_color (vv_kwargs vis)
       = Some (match vk_color kw, vk_c kw, vol_color x with
               | Some c, _, _ => c
               | None, Some c, _ => c
               | None, None, Some (ColorValue c) => ColorValue c
               | None, None, _ => ColorValue volume_default_color
               end)
    /\ vk_c (vv_kwargs vis)
       = match vk_color kw with Some _ => vk_c kw | None => None end
    /\ vv_object_id vis
       = match vol_name x with
         | NameMissing => OidUUID (uuid_source w (uuid_drawn w))
         | NameNone => OidNone
         | NameStr s => OidName s
         end.
Proof.
  unfold volume2gfx, volume_color_kwargs, bind, ext, emit, uuid4, ret.
  destruct (vk_color kw) as [c0 |] eqn:E0;
    destruct (vk_c kw) as [c1 |] eqn:E1;
    destruct (vol_color x) as [[| c2] |];
    simpl; eexists; eexists; (split; [reflexivity |]); simpl;
    rewrite ?E0, ?E1; repeat split; reflexivity.
Qed.

(** ** The further properties at concrete inputs *)

Import Samples.


(** The same conversion. *)
Lemma visuals_are_consistent_witness :
  neuron2gfx (InNeuronList two_neurons) None (kw_display "circles") w0
  = (inr two_neurons_visuals, two_neurons_world)
  /\ Forall (fun v =>
               exists part n oid,
                 custom part n oid v
                 /\ ((part = "neurites"
                      /\ (kind_of v = KLine \/ kind_of v = KMesh
                          \/ kind_of v = KVolume))
                     \/ (part = "soma" /\ kind_of v = KSphere)
                     \/ (part = "connectors"
                         /\ (kind_of v = KPoints \/ kind_of v = KLine))))
            two_neurons_visuals.
Proof.
  assert (E : neuron2gfx (InNeuronList two_neurons) None
                         (kw_display "circles") w0
              = (inr two_neurons_visuals, two_neurons_world))
    by (vm_compute; reflexivity).
  split; [exact E |].
  exact (visuals_are_consistent (InNeuronList two_neurons) None
           (kw_display "circles") w0 two_neurons_visuals
           two_neurons_world E).
Defined.

(** A skeleton and a mesh neuron with [radius] and connectors. *)
Lemma radius_draws_meshes_witness :
  get (kw_radius kw_radius_connectors) false = true
  /\ neuron2gfx (InNeuronList two_neurons) None kw_radius_connectors w0
     = (inr radius_visuals, radius_world)
  /\ Forall (fun v => kind_of v = KMesh \/ kind_of v = KPoints)
            radius_visuals.
Proof.
  assert (E : neuron2gfx (InNeuronList two_neurons) None
                         kw_radius_connectors w0
              = (inr radius_visuals, radius_world))
    by (vm_compute; reflexivity).
  split; [reflexivity |]. split; [exact E |].
  apply (radius_draws_meshes two_neurons None kw_radius_connectors w0
           radius_visuals radius_world); [reflexivity | | exact E].
  repeat constructor.
Defined.

(** The UUIDs of the example world are pairwise distinct. *)
Lemma positions_have_distinct_object_ids_witness :
  neuron2gfx (InNeuronList two_neurons) None (kw_display "circles") w0
  = (inr two_neurons_visuals, two_neurons_world)
  /\ uuid_drawn two_neurons_world
     = uuid_drawn w0 + List.length (input_neurons (InNeuronList two_neurons))
  /\ exists groups,
       two_neurons_visuals = List.concat groups
       /\ List.length groups
          = List.length (input_neurons (InNeuronList two_neurons))
       /\ (forall i g, nth_error groups i = Some g ->
                       converted_at (kw_display "circles")
                         (input_neurons (InNeuronList two_neurons)) w0 i g)
       /\ forall i j g g' v v',
            i <> j ->
            nth_error groups i = Some g -> nth_error groups j = Some g' ->
            In v g -> In v' g' ->
            _object_id v <> _object_id v'.
Proof.
  assert (E : neuron2gfx (InNeuronList two_neurons) None
                         (kw_display "circles") w0
              = (inr two_neurons_visuals, two_neurons_world))
    by (vm_compute; reflexivity).
  split; [exact E |].
  apply (positions_have_distinct_object_ids (InNeuronList two_neurons) None
           (kw_display "circles") w0 two_neurons_visuals two_neurons_world);
    [| exact E].
  intros i j Hij. simpl. lia.
Defined.

(** The mesh neuron added with the defaults. *)
Lemma add_neurons_all_or_nothing_witness :
  add_neurons (InNeuron (Mesh mesh1)) add_neurons_defaults w0
  = (inr tt, added_mesh_world)
  /\ exists vis wc wv,
       check_input (accepted_input (InNeuron (Mesh mesh1))) w0 = (inr tt, wc)
       /\ neuron2gfx (accepted_input (InNeuron (Mesh mesh1)))
                     (a_color add_neurons_defaults)
                     (add_neurons_kwargs add_neurons_defaults) wc
          = (inr vis, wv)
       /\ scene added_mesh_world
          = (if a_clear add_neurons_defaults then [] else scene w0) ++ vis
       /\ events added_mesh_world
          = events wv
              ++ (if a_clear add_neurons_defaults
                  then [Called viewer_clear] else [])
              ++ repeat (Called viewer_add_to_scene) (List.length vis)
              ++ (if a_center add_neurons_defaults
                  then [Called viewer_center_camera] else []).
Proof.
  assert (E : add_neurons (InNeuron (Mesh mesh1)) add_neurons_defaults w0
              = (inr tt, added_mesh_world))
    by (vm_compute; reflexivity).
  split; [exact E |].
  exact (add_neurons_all_or_nothing (InNeuron (Mesh mesh1))
           add_neurons_defaults w0 (inr tt) added_mesh_world E).
Defined.

(** The mesh neuron with its connector, added with [connectors=True]. *)
Lemma connectors_without_layout_fail_witness :
  has_connectors (Mesh mesh1) = true
  /\ a_connectors args_connectors = true
  /\ a_synapse_layout args_connectors = None
  /\ exists e w1,
       add_neurons (InNeuron (Mesh mesh1)) args_connectors w0 = (inl e, w1)
       /\ scene w1 = scene w0.
Proof.
  split; [reflexivity |]. split; [reflexivity |]. split; [reflexivity |].
  apply (connectors_without_layout_fail (InNeuron (Mesh mesh1))
           args_connectors w0 (Mesh mesh1));
    [left; reflexivity | reflexivity | reflexivity | reflexivity].
Defined.

(** A one-node skeleton, a mesh neuron without faces and a neuron of
    another kind. *)
Lemma skipped_neurons_give_warnings_only_witness :
  forallb skipped skipped_neurons = true
  /\ exists w1,
       neuron2gfx (InNeuronList skipped_neurons) None no_kwargs w0
       = (inr [], w1)
       /\ warnings w1 = warnings w0 ++ flat_map skip_warning skipped_neurons.
Proof.
  split; [reflexivity |].
  apply (skipped_neurons_give_warnings_only skipped_neurons None no_kwargs
           w0 navis_model_contract); reflexivity.
Defined.

(** The three-node skeleton with its one soma. *)
Lemma one_sphere_per_soma_witness :
  skeleton2gfx skeleton3 grey 9%N no_kwargs w0
  = (inr skeleton3_visuals, skeleton3_world)
  /\ exists line spheres,
       skeleton3_visuals = line :: spheres
       /\ is_neurite_line skeleton3 line
       /\ Forall2 (fun s v => exists n r col,
                                loc (nodes skeleton3) s = inr n
                                /\ resolve_soma_radius skeleton3 n = inr r
                                /\ v = soma_sphere skeleton3 9%N n r col)
                  (valid_somas (make_iterable (soma skeleton3))) spheres.
Proof.
  assert (E : skeleton2gfx skeleton3 grey 9%N no_kwargs w0
              = (inr skeleton3_visuals, skeleton3_world))
    by (vm_compute; reflexivity).
  split; [exact E |].
  apply (one_sphere_per_soma skeleton3 grey 9%N no_kwargs w0
           skeleton3_visuals skeleton3_world);
    [vm_compute; lia | reflexivity | reflexivity | vm_compute; lia | exact E].
Defined.

(** Two presynapses and one postsynapse, drawn as circles. *)
Lemma circles_draw_every_connector_once_witness :
  connector_layout (kw_display "circles")
  = inr (layout_update default_connector_colors (display_layout "circles"))
  /\ exists vs w1,
       connectors2gfx (Tree skeleton_three_connectors) grey 9%N
                      (kw_display "circles") w0
       = (inr vs, w1)
       /\ map obj_of vs
          = map (fun j =>
                   Points (connector_positions j three_connectors)
                          (eval_color
                             (connector_color
                                (kw_cn_colors (kw_display "circles"))
                                (layout_update default_connector_colors
                                               (display_layout "circles"))
                                grey j))
                          (get (lay_size
                                  (layout_update default_connector_colors
                                     (display_layout "circles")))
                               (of_Z 100)))
                (unique (map cn_type three_connectors))
       /\ NoDup (unique (map cn_type three_connectors))
       /\ (forall j, In j (unique (map cn_type three_connectors))
                     <-> In j (map cn_type three_connectors))
       /\ list_sum (map n_points vs) = List.length three_connectors.
Proof.
  split; [reflexivity |].
  apply (circles_draw_every_connector_once (Tree skeleton_three_connectors)
           grey 9%N (kw_display "circles") w0
           (layout_update default_connector_colors (display_layout "circles"))
           three_connectors); reflexivity.
Defined.


(** An RGB colour shaded over two vertices. *)
Lemma flat_color_takes_shading_alpha_witness :
  column3 shading2 = inr [zero; one]
  /\ exists rows,
       merge_alpha (CArr1 [one; zero; zero]) shading2 = inr (CArr2 rows)
       /\ rows = map (fun al => firstn 3 [one; zero; zero] ++ [al])
                     [zero; one]
       /\ List.length rows = List.length shading2
       /\ column3 rows = inr [zero; one].
Proof.
  split; [reflexivity |].
  apply (flat_color_takes_shading_alpha [one; zero; zero] shading2
           [zero; one]);
    [left; reflexivity | intros E; discriminate E | reflexivity].
Defined.

(** Two segments of two points with their colours. *)
Lemma flattened_sequences_align_witness :
  map (@List.length xyz) [[pt 0 0 0; pt 1 0 0]; [pt 2 0 0; pt 3 0 0]]
  = map (@List.length crow)
        [[[one; zero; zero]; [one; zero; zero]];
         [[zero; one; zero]; [zero; one; zero]]]
  /\ exists rows crows,
       flatten_coords [[pt 0 0 0; pt 1 0 0]; [pt 2 0 0; pt 3 0 0]] = inr rows
       /\ flatten_colors [[[one; zero; zero]; [one; zero; zero]];
                          [[zero; one; zero]; [zero; one; zero]]]
          = inr crows
       /\ List.length rows
          = list_sum (map (@List.length xyz)
                          [[pt 0 0 0; pt 1 0 0]; [pt 2 0 0; pt 3 0 0]])
            + List.length [[pt 0 0 0; pt 1 0 0]; [pt 2 0 0; pt 3 0 0]]
       /\ List.length crows = List.length rows
       /\ forall i,
            In i (break_indices 0
                    (map (@List.length xyz)
                         [[pt 0 0 0; pt 1 0 0]; [pt 2 0 0; pt 3 0 0]])) ->
            nth_error rows i = Some nan_row
            /\ exists r, nth_error crows i = Some r /\ is_cbreak r = true.
Proof.
  split; [reflexivity |].
  exact (flattened_sequences_align
           [[pt 0 0 0; pt 1 0 0]; [pt 2 0 0; pt 3 0 0]]
           [[[one; zero; zero]; [one; zero; zero]];
            [[zero; one; zero]; [zero; one; zero]]]
           eq_refl).
Defined.

(** ** Colours and widths of a skeleton *)

Section SkeletonColors.

Context `{Navis}.

(** The neurite line of a skeleton is built from the flattened segments,
    with the line width [linewidth], else [lw], else 2, and with the colour
    as given, cast to float32: per-vertex colours reach the line as one row
    per node, not as the flattened per-point colours. *)
Theorem neurite_line_arguments t c oid kw w v vs w1 :
  skeleton2gfx t c oid kw w = (inr (v :: vs), w1) ->
  exists c' rows,
    asarray_f32 c = inr c'
    /\ flatten_coords (segments_to_coords t) = inr rows
    /\ v = add_custom_attributes
             (new_visual
                (Line (Some rows)
                      (get (kw_linewidth kw) (get (kw_lw kw) (of_Z 2)))
                      c'))
             "neurites" (Tree t) oid.
Proof.
  unfold skeleton2gfx. intros E.
  destruct (nodes t) as [| n0 [| n1 tbl]];
    try (unfold bind, warn, emit, ret in E; simpl in E; discriminate E).
  destruct (get (kw_connectors_only kw) false); [discriminate E |].
  apply bind_inr in E. destruct E as (c' & wc & Ec & E).
  apply lift_inr in Ec. destruct Ec as [Ec ->].
  apply bind_inr in E. destruct E as (coords & ws & Es & E).
  assert (Ecoords : coords = segments_to_coords t).
  { destruct c'; inv_run Es; reflexivity. }
  subst coords. inv_run E. eauto.
Qed.



End SkeletonColors.

(** The line of the three-node skeleton. *)
Lemma neurite_line_arguments_witness :
  skeleton2gfx skeleton3 grey 9%N no_kwargs w0
  = (inr skeleton3_visuals, skeleton3_world)
  /\ exists c' rows,
       asarray_f32 grey = inr c'
       /\ flatten_coords (segments_to_coords skeleton3) = inr rows
       /\ hd skeleton3_soma skeleton3_visuals
          = add_custom_attributes
              (new_visual
                 (Line (Some rows)
                       (get (kw_linewidth no_kwargs)
                            (get (kw_lw no_kwargs) (of_Z 2)))
                       c'))
              "neurites" (Tree skeleton3) 9%N.
Proof.
  assert (E : skeleton2gfx skeleton3 grey 9%N no_kwargs w0
              = (inr (hd skeleton3_soma skeleton3_visuals
                        :: tl skeleton3_visuals), skeleton3_world))
    by (vm_compute; reflexivity).
  split; [exact E |].
  exact (neurite_line_arguments skeleton3 grey 9%N no_kwargs w0
           (hd skeleton3_soma skeleton3_visuals) (tl skeleton3_visuals)
           skeleton3_world E).
Defined.

